(** * facelist: the directory page handler of [facelist.go]

    A shallow embedding of the request handler [indexHandler] and of the
    data it works on: the Slack member list is fetched, decoded into the
    process-wide [userlist], filtered, sorted and handed to the page
    template.  Go strings are byte strings, modelled by [string] (a list
    of 8-bit [ascii] characters); slices are lists. *)

From Stdlib Require Import String Ascii List Bool Arith Lia ZArith.
From Stdlib Require Import Sorting.Sorted Sorting.Permutation.
Import ListNotations.

Local Open Scope string_scope.
Local Open Scope list_scope.

(** ** Data model (the [type ( ... )] block of facelist.go) *)

Record config : Type := mkConfig {
  EmailFilter   : string;   (* envconfig:"EMAIL_FILTER" default:"" *)
  SlackApiToken : string;   (* envconfig:"SLACK_API_TOKEN" *)
  cfg_SlackTeam : string    (* SlackTeam, envconfig:"SLACK_TEAM" *)
}.

Record Profile : Type := mkProfile {
  FirstName : string;   (* json:"first_name" *)
  LastName  : string;   (* json:"last_name" *)
  RealName  : string;   (* json:"real_name" *)
  Title     : string;   (* json:"title" *)
  Image     : string;   (* json:"image_192" *)
  Phone     : string;   (* json:"phone" *)
  Email     : string;   (* json:"email" *)
  Status    : string    (* json:"status_text" *)
}.

Record User : Type := mkUser {
  Name        : string;    (* json:"name" *)
  Id          : string;    (* json:"id" *)
  TeamId      : string;    (* json:"team_id" *)
  IsBot       : bool;      (* json:"is_bot" *)
  Deleted     : bool;      (* json:"deleted" *)
  UserProfile : Profile    (* Profile, json:"profile" *)
}.

Record UserList : Type := mkUserList {
  SlackTeam : string;
  Members   : list User
}.

(** ** The [strings] functions the handler calls *)

(** [strings.HasSuffix]:
    [len(s) >= len(suffix) && s[len(s)-len(suffix):] == suffix]. *)
Definition HasSuffix (s suffix : string) : bool :=
  Nat.leb (String.length suffix) (String.length s) &&
  String.eqb
    (substring (String.length s - String.length suffix)
               (String.length suffix) s)
    suffix.

(** ** The filter loop of [indexHandler] *)

(** The condition of the [if] inside the loop. *)
Definition keep (c : config) (user : User) : bool :=
  negb (Deleted user) && negb (IsBot user) &&
  HasSuffix (Email (UserProfile user)) (EmailFilter c).

(** [filteredUsers := []User{}] followed by the [for i := range] loop:
    every member is visited once, in index order, and appended to the
    result when the condition holds. *)
Definition filterUsers (c : config) (members : list User) : list User :=
  fold_left
    (fun filteredUsers user =>
       if keep c user then filteredUsers ++ [user] else filteredUsers)
    members [].

(** ** [strings.ToLower] and the comparison used for sorting *)

(** [c < utf8.RuneSelf] *)
Definition isASCII_byte (c : ascii) : bool := N.ltb (N_of_ascii c) 128.

(** ['A' <= c && c <= 'Z'] *)
Definition isUpper_byte (c : ascii) : bool :=
  N.leb 65 (N_of_ascii c) && N.leb (N_of_ascii c) 90.

(** [c += 'a' - 'A'] for an upper-case letter, [c] otherwise. *)
Definition lower_byte (c : ascii) : ascii :=
  if isUpper_byte c then ascii_of_N (N_of_ascii c + 32) else c.

Fixpoint isASCII (s : string) : bool :=
  match s with
  | EmptyString => true
  | String c s' => isASCII_byte c && isASCII s'
  end.

Fixpoint map_bytes (f : ascii -> ascii) (s : string) : string :=
  match s with
  | EmptyString => EmptyString
  | String c s' => String (f c) (map_bytes f s')
  end.

(** The functions of the Go library whose results depend on tables or
    text formats that are not part of facelist.go.  [unicode_ToLower] is
    [strings.Map(unicode.ToLower, s)], the path [strings.ToLower] takes
    for a string with a byte outside ASCII.  [json_Unmarshal body v] is
    [json.Unmarshal(body, &v)] for [v] of type [UserList]: the value left
    in [v] and the error returned. *)
Record GoLib : Type := mkGoLib {
  unicode_ToLower : string -> string;
  json_Unmarshal  : string -> UserList -> UserList * option string
}.

(** [strings.ToLower]: an ASCII-only string is lowered byte by byte
    (and is returned as it is when it has no upper-case letter); any
    other string goes through the Unicode tables. *)
Definition ToLower (L : GoLib) (s : string) : string :=
  if isASCII s then map_bytes lower_byte s else unicode_ToLower L s.

(** The sort key of a member. *)
Definition sortKey (L : GoLib) (user : User) : string :=
  ToLower L (RealName (UserProfile user)).

(** The [less] closure given to [sort.SliceStable]; [<] on Go strings
    compares byte-wise, as [String.ltb] does. *)
Definition less (L : GoLib) (a b : User) : bool :=
  String.ltb (sortKey L a) (sortKey L b).

(** ** [sort.SliceStable] *)

(** The inner loop of the library's insertion sort,
    [for j := i; j > a && less(j, j-1); j-- { swap(j, j-1) }]:
    the new element travels towards the front while it is less than its
    left neighbour.  [before] is the part of the slice in front of the
    element, nearest neighbour first. *)
Fixpoint sink {A : Type} (lt : A -> A -> bool) (x : A) (before : list A)
  : list A :=
  match before with
  | [] => [x]
  | y :: before' =>
      if lt x y then y :: sink lt x before' else x :: before
  end.

(** [sort.SliceStable(x, less)], as the stable insertion sort the
    library runs on a block: elements are taken in index order and each
    one sinks into the sorted part in front of it.  On a longer slice
    the library sorts blocks this way and merges them, keeping equal
    elements in order; for a comparison of keys that gives the same
    list ([SliceStable_unique] below). *)
Definition SliceStable {A : Type} (lt : A -> A -> bool) (x : list A)
  : list A :=
  rev (fold_left (fun before e => sink lt e before) x []).

(** ** The world around the handler *)

Definition StatusOK : Z := 200.
Definition StatusInternalServerError : Z := 500.

(** What [client.Get] hands back when it returns no error: the status
    line of the upstream answer and what [ioutil.ReadAll(resp.Body)]
    returns, the bytes read and the read error, if any. *)
Record Response : Type := mkResponse {
  StatusCode : Z;
  ReadAll_bytes : string;
  ReadAll_err : option string
}.

(** The parts of one request that the handler does not control:
    the result of [client.Get(url)] (an error text, or a response) and
    the run of [IndexTemplate.Execute(w, data)] (the chunks it passes to
    [w.Write], in order, and the error it returns, if any; a template
    that fails may have written part of its output already). *)
Record Upstream : Type := mkUpstream {
  client_Get : string -> string + Response;
  template_Execute : UserList -> list string * option string
}.

(** [http.ResponseWriter]: the status line once it is committed, and
    the body written so far. *)
Record ResponseWriter : Type := mkResponseWriter {
  wroteHeader : option Z;
  written : string
}.

Definition newResponseWriter : ResponseWriter :=
  {| wroteHeader := None; written := "" |}.

(** [w.WriteHeader(code)]: only the first call counts. *)
Definition WriteHeader (w : ResponseWriter) (code : Z) : ResponseWriter :=
  match wroteHeader w with
  | Some _ => w
  | None => {| wroteHeader := Some code; written := written w |}
  end.

(** [w.Write(b)]: commits status 200 when no status was written yet. *)
Definition Write (w : ResponseWriter) (b : string) : ResponseWriter :=
  let w' := WriteHeader w StatusOK in
  {| wroteHeader := wroteHeader w'; written := (written w' ++ b)%string |}.

Definition newline : string := String (ascii_of_N 10) EmptyString.

(** [http.Error(w, error, code)]: [w.WriteHeader(code)] followed by
    [fmt.Fprintln(w, error)]. *)
Definition http_Error_writer (w : ResponseWriter) (error : string) (code : Z)
  : ResponseWriter :=
  Write (WriteHeader w code) (error ++ newline)%string.

(** The calls the handler makes to the outside, in the order made. *)
Inductive Event : Type :=
| EvGet (url : string)
| EvReadAll
| EvUnmarshal (body : string)
| EvExecute (data : UserList)
| EvHttpError (error : string) (code : Z)
| EvLogPrintf (line : string)
| EvLogFatal (line : string).

(** The state a request runs in: the process-wide [userlist], the
    writer [w] of the request, and the calls made so far. *)
Record Proc : Type := mkProc {
  userlist : UserList;
  w : ResponseWriter;
  trace : list Event
}.

(** A step either returns, or ends the process ([log.Fatal] calls
    [os.Exit(1)]). *)
Inductive Result (A : Type) : Type :=
| Returned (a : A) (p : Proc)
| Exited (code : Z) (p : Proc).

Arguments Returned {A} a p.
Arguments Exited {A} code p.

Definition M (A : Type) : Type := Proc -> Result A.

Definition ret {A : Type} (a : A) : M A := fun p => Returned a p.

Definition bind {A B : Type} (m : M A) (k : A -> M B) : M B :=
  fun p =>
    match m p with
    | Returned a p' => k a p'
    | Exited code p' => Exited code p'
    end.

Declare Scope proc_scope.
Delimit Scope proc_scope with proc.
Notation "x <- m ;; k" := (bind m (fun x => k))
  (at level 61, m at next level, right associativity) : proc_scope.
Notation "m ;; k" := (bind m (fun _ => k))
  (at level 61, right associativity) : proc_scope.

Definition emit (e : Event) : M unit :=
  fun p => Returned tt
    {| userlist := userlist p; w := w p; trace := trace p ++ [e] |}.

Definition get_userlist : M UserList := fun p => Returned (userlist p) p.

Definition put_userlist (ul : UserList) : M unit :=
  fun p => Returned tt {| userlist := ul; w := w p; trace := trace p |}.

Definition modify_w (f : ResponseWriter -> ResponseWriter) : M unit :=
  fun p => Returned tt
    {| userlist := userlist p; w := f (w p); trace := trace p |}.

Definition os_Exit {A : Type} (code : Z) : M A := fun p => Exited code p.

(** [http.Error(w, error, code)] *)
Definition http_Error (error : string) (code : Z) : M unit :=
  (emit (EvHttpError error code) ;;
   modify_w (fun w => http_Error_writer w error code))%proc.

(** [log.Printf] *)
Definition log_Printf (line : string) : M unit := emit (EvLogPrintf line).

(** [log.Fatal(err)]: the message is logged and the process exits
    with status 1. *)
Definition log_Fatal {A : Type} (err : string) : M A :=
  (emit (EvLogFatal err) ;; os_Exit 1)%proc.

(** [client.Get(url)] *)
Definition do_Get (up : Upstream) (url : string) : M (string + Response) :=
  (emit (EvGet url) ;; ret (client_Get up url))%proc.

(** [ioutil.ReadAll(resp.Body)] *)
Definition ioutil_ReadAll (resp : Response) : M (string * option string) :=
  (emit EvReadAll ;; ret (ReadAll_bytes resp, ReadAll_err resp))%proc.

(** [json.Unmarshal(body, &userlist)]: decodes into the process-wide
    variable and returns the error. *)
Definition do_Unmarshal (L : GoLib) (body : string) : M (option string) :=
  (emit (EvUnmarshal body) ;;
   ul <- get_userlist ;;
   let r := json_Unmarshal L body ul in
   put_userlist (fst r) ;;
   ret (snd r))%proc.

(** [IndexTemplate.Execute(w, data)]: the template writes to [w] chunk
    by chunk and returns its error. *)
Definition do_Execute (up : Upstream) (data : UserList) : M (option string) :=
  (emit (EvExecute data) ;;
   let r := template_Execute up data in
   modify_w (fun w => fold_left Write (fst r) w) ;;
   ret (snd r))%proc.

(** ** [init] *)

(** [init], after [envconfig.Process] has filled [cfg]: both required
    settings must be present, and the team name is copied into
    [userlist].  [None] stands for the fatal exit. *)
Definition init (cfg : config) : option UserList :=
  if String.eqb (cfg_SlackTeam cfg) "" then None
  else if String.eqb (SlackApiToken cfg) "" then None
  else Some {| SlackTeam := cfg_SlackTeam cfg; Members := [] |}.

(** ** [indexHandler] *)

Definition oops : string :=
  "Oops. That's embarrassing. Please try again later.".

(** [fmt.Sprintf("https://slack.com/api/users.list?token=%s", ...)] *)
Definition users_list_url (cfg : config) : string :=
  ("https://slack.com/api/users.list?token=" ++ SlackApiToken cfg)%string.

Definition indexHandler (L : GoLib) (cfg : config) (up : Upstream) : M unit :=
  (let url := users_list_url cfg in
   r <- do_Get up url ;;
   match r with
   | inl err => http_Error err StatusInternalServerError
   | inr resp =>
       rd <- ioutil_ReadAll resp ;;
       let body := fst rd in
       err <- do_Unmarshal L body ;;
       match err with
       | Some e => log_Fatal e
       | None => ret tt
       end ;;
       ul <- get_userlist ;;
       let filteredUsers := filterUsers cfg (Members ul) in
       let filteredUsers := SliceStable (less L) filteredUsers in
       put_userlist {| SlackTeam := SlackTeam ul; Members := filteredUsers |} ;;
       ul <- get_userlist ;;
       err <- do_Execute up ul ;;
       match err with
       | Some e =>
           log_Printf
             ("Failed to execute index template: " ++ e ++ newline)%string ;;
           http_Error oops StatusInternalServerError
       | None => ret tt
       end
   end)%proc.

(** One request served by the process: the handler runs on a fresh
    writer against the current [userlist]. *)
Definition serve (L : GoLib) (cfg : config) (up : Upstream) (ul : UserList)
  : Result unit :=
  indexHandler L cfg up {| userlist := ul; w := newResponseWriter; trace := [] |}.

(** What the HTTP server sends once the handler has returned: the
    committed status, or 200 when the handler never wrote one, and the
    body.  A process that exited sends nothing. *)
Definition http_response (r : Result unit) : option (Z * string) :=
  match r with
  | Returned _ p =>
      Some (match wroteHeader (w p) with Some c => c | None => StatusOK end,
            written (w p))
  | Exited _ _ => None
  end.

Definition final_proc {A : Type} (r : Result A) : Proc :=
  match r with Returned _ p => p | Exited _ p => p end.

(** Requests served one after the other by one process: each starts
    from the [userlist] the one before left; nothing is served after
    the process has exited. *)
Fixpoint serve_all (L : GoLib) (cfg : config) (ups : list Upstream)
    (ul : UserList) : list (Result unit) :=
  match ups with
  | [] => []
  | up :: ups' =>
      let r := serve L cfg up ul in
      r :: match r with
           | Returned _ p => serve_all L cfg ups' (userlist p)
           | Exited _ _ => []
           end
  end.

(** What the template is executed on when the body of [resp] decodes:
    the decoded list, filtered and sorted. *)
Definition rendered_data (L : GoLib) (cfg : config) (ul : UserList)
    (resp : Response) : UserList :=
  let decoded := fst (json_Unmarshal L (ReadAll_bytes resp) ul) in
  {| SlackTeam := SlackTeam decoded;
     Members := SliceStable (less L) (filterUsers cfg (Members decoded)) |}.

(** The values the template was executed on. *)
Fixpoint executed (t : list Event) : list UserList :=
  match t with
  | [] => []
  | EvExecute data :: t' => data :: executed t'
  | _ :: t' => executed t'
  end.

(** The number of calls of [client.Get]. *)
Fixpoint fetches (t : list Event) : nat :=
  match t with
  | [] => 0
  | EvGet _ :: t' => S (fetches t')
  | _ :: t' => fetches t'
  end.

(** The upstream answered with an HTTP error status (4xx or 5xx). *)
Definition http_error_status (resp : Response) : bool :=
  Z.leb 400 (StatusCode resp).

(** ** [encoding/json], as far as [json.Unmarshal(body, &userlist)] goes

    The library first checks that the whole input is one well-formed
    JSON text; only then does it store values, guided by the field names
    and tags of the Go types above.  Both steps are written out here,
    for the examples to run on; the theorems about the handler hold for
    any decoder ([GoLib]).  Left out: the wording of the library's error
    texts (two short texts stand for them), its limit on the depth of
    nesting, and what a slice holds between its length and its capacity
    (elements added to a slice start from the zero value). *)

Module JSON.

#[warnings="-register-all"]
Inductive json : Type :=
| JNull
| JBool (b : bool)
| JNumber (literal : string)
| JString (s : string)
| JArray (items : list json)
| JObject (members : list (string * json)).

(** *** Bytes *)

Definition dquote : ascii := ascii_of_N 34.
Definition byte (n : N) : ascii := ascii_of_N n.
Definition code (c : ascii) : N := N_of_ascii c.

Definition in_range (lo hi : N) (c : ascii) : bool :=
  N.leb lo (code c) && N.leb (code c) hi.

Definition is_space (c : ascii) : bool :=
  N.eqb (code c) 32 || N.eqb (code c) 9 || N.eqb (code c) 13 ||
  N.eqb (code c) 10.

Definition is_digit (c : ascii) : bool := in_range 48 57 c.

Definition hexval (c : ascii) : option N :=
  if in_range 48 57 c then Some (code c - 48)%N
  else if in_range 97 102 c then Some (code c - 87)%N
  else if in_range 65 70 c then Some (code c - 55)%N
  else None.

Fixpoint drop (n : nat) (s : string) : string :=
  match n, s with
  | S n', String _ s' => drop n' s'
  | _, _ => s
  end.

Definition take (n : nat) (s : string) : string := substring 0 n s.

(** *** UTF-8, as [unicode/utf8] encodes and decodes it *)

Definition RuneError : N := 65533.

(** [utf8.EncodeRune] *)
Definition EncodeRune (r : N) : string :=
  let r := if (N.leb 55296 r && N.leb r 57343) || N.ltb 1114111 r
           then RuneError else r in
  if N.ltb r 128 then String (byte r) ""
  else if N.ltb r 2048 then
    String (byte (192 + r / 64)) (String (byte (128 + r mod 64)) "")
  else if N.ltb r 65536 then
    String (byte (224 + r / 4096))
      (String (byte (128 + (r / 64) mod 64))
         (String (byte (128 + r mod 64)) ""))
  else
    String (byte (240 + r / 262144))
      (String (byte (128 + (r / 4096) mod 64))
         (String (byte (128 + (r / 64) mod 64))
            (String (byte (128 + r mod 64)) ""))).

Definition cont (c : ascii) : bool := in_range 128 191 c.

(** The width of the well-formed UTF-8 sequence [s] starts with, or [0]
    when [utf8.DecodeRune] would answer [(RuneError, 1)]. *)
Definition utf8_width (s : string) : nat :=
  match s with
  | String b0 (String b1 t1) =>
      if in_range 194 223 b0 then (if cont b1 then 2 else 0)
      else
        match t1 with
        | String b2 t2 =>
            let second_ok :=
              if N.eqb (code b0) 224 then in_range 160 191 b1
              else if N.eqb (code b0) 237 then in_range 128 159 b1
              else if in_range 225 239 b0 then cont b1
              else false in
            if second_ok then (if cont b2 then 3 else 0)
            else
              match t2 with
              | String b3 _ =>
                  let second_ok4 :=
                    if N.eqb (code b0) 240 then in_range 144 191 b1
                    else if in_range 241 243 b0 then cont b1
                    else if N.eqb (code b0) 244 then in_range 128 143 b1
                    else false in
                  if second_ok4 && cont b2 && cont b3 then 4 else 0
              | _ => 0
              end
        | _ => 0
        end
  | _ => 0
  end.

(** *** Unquoting a string literal ([unquoteBytes]) *)

(** [getu4]: the code unit of a [\uXXXX] escape at the head of [s]. *)
Definition getu4 (s : string) : option N :=
  match s with
  | String bs (String u (String h1 (String h2 (String h3 (String h4 _))))) =>
      if Ascii.eqb bs "\" && Ascii.eqb u "u" then
        match hexval h1, hexval h2, hexval h3, hexval h4 with
        | Some a, Some b, Some c, Some d =>
            Some (a * 4096 + b * 256 + c * 16 + d)%N
        | _, _, _, _ => None
        end
      else None
  | _ => None
  end.

(** [utf16.DecodeRune] on the result of two [getu4] calls. *)
Definition utf16_DecodeRune (r1 : N) (r2 : option N) : N :=
  match r2 with
  | Some r2 =>
      if N.leb 55296 r1 && N.ltb r1 56320 && N.leb 56320 r2 && N.ltb r2 57344
      then ((r1 - 55296) * 1024 + (r2 - 56320) + 65536)%N
      else RuneError
  | None => RuneError
  end.

Definition simple_escape (c : ascii) : option ascii :=
  if Ascii.eqb c dquote then Some dquote
  else if Ascii.eqb c "\" then Some "\"%char
  else if Ascii.eqb c "/" then Some "/"%char
  else if Ascii.eqb c "'" then Some "'"%char
  else if Ascii.eqb c "b" then Some (byte 8)
  else if Ascii.eqb c "f" then Some (byte 12)
  else if Ascii.eqb c "n" then Some (byte 10)
  else if Ascii.eqb c "r" then Some (byte 13)
  else if Ascii.eqb c "t" then Some (byte 9)
  else None.

(** The text between the quotes of a literal the scanner has accepted,
    turned into the bytes of the Go string: escapes are replaced, and
    bytes that are not well-formed UTF-8 become U+FFFD.  Every step
    consumes at least one byte, so [fuel = length raw] is enough. *)
Fixpoint unquote_loop (fuel : nat) (raw : string) : string :=
  match fuel with
  | O => ""
  | S fuel' =>
      match raw with
      | "" => ""
      | String c rest =>
          if Ascii.eqb c "\" then
            match rest with
            | "" => ""
            | String e rest' =>
                if Ascii.eqb e "u" then
                  match getu4 raw with
                  | None => ""
                  | Some rr =>
                      let after := drop 6 raw in
                      if N.leb 55296 rr && N.leb rr 57343 then
                        let dec := utf16_DecodeRune rr (getu4 after) in
                        if N.eqb dec RuneError
                        then (EncodeRune RuneError ++ unquote_loop fuel' after)
                        else (EncodeRune dec ++ unquote_loop fuel' (drop 6 after))
                      else (EncodeRune rr ++ unquote_loop fuel' after)
                  end
                else
                  match simple_escape e with
                  | Some b => String b (unquote_loop fuel' rest')
                  | None => ""
                  end
            end
          else if N.ltb (code c) 128 then String c (unquote_loop fuel' rest)
          else
            match utf8_width raw with
            | O => (EncodeRune RuneError ++ unquote_loop fuel' rest)
            | n => (take n raw ++ unquote_loop fuel' (drop n raw))
            end
      end
  end%string.

Definition unquote (raw : string) : string :=
  unquote_loop (String.length raw) raw.

(** *** The scanner: is the input one JSON text, and which one *)

(** A scan yields an error text, or a value and the input left. *)
Definition Scan (A : Type) : Type := (string + A * string)%type.

Definition unexpected_end {A : Type} : Scan A :=
  inl "unexpected end of JSON input".
Definition invalid_character {A : Type} : Scan A :=
  inl "invalid character in JSON input".

Definition scan_map {A B : Type} (f : A -> B) (r : Scan A) : Scan B :=
  match r with
  | inl e => inl e
  | inr (a, rest) => inr (f a, rest)
  end.

Fixpoint skip_space (s : string) : string :=
  match s with
  | String c s' => if is_space c then skip_space s' else s
  | "" => ""
  end%string.

(** The rest of a literal name ([true], [false], [null]). *)
Fixpoint scan_word (word s : string) : Scan unit :=
  match word with
  | "" => inr (tt, s)
  | String c word' =>
      match s with
      | "" => unexpected_end
      | String d s' =>
          if Ascii.eqb c d then scan_word word' s' else invalid_character
      end
  end%string.

(** The states of the scanner inside a string literal. *)
Inductive InString : Type :=
| Plain                      (* stateInString *)
| Esc                        (* stateInStringEsc *)
| EscU (missing : nat).      (* stateInStringEscU, U1, U12, U123 *)

(** From just after the opening quote to just after the closing one;
    the literal's text is returned as written. *)
Fixpoint scan_string (st : InString) (s : string) : Scan string :=
  match s with
  | "" => unexpected_end
  | String c s' =>
      match st with
      | Plain =>
          if Ascii.eqb c dquote then inr ("", s')
          else if Ascii.eqb c "\" then scan_map (String c) (scan_string Esc s')
          else if N.ltb (code c) 32 then invalid_character
          else scan_map (String c) (scan_string Plain s')
      | Esc =>
          if Ascii.eqb c "u" then scan_map (String c) (scan_string (EscU 3) s')
          else if Ascii.eqb c "'" then invalid_character
          else
            match simple_escape c with
            | Some _ => scan_map (String c) (scan_string Plain s')
            | None => invalid_character
            end
      | EscU missing =>
          match hexval c with
          | None => invalid_character
          | Some _ =>
              scan_map (String c)
                (scan_string
                   (match missing with O => Plain | S m => EscU m end) s')
          end
      end
  end%string.

Fixpoint span_digits (s : string) : string * string :=
  match s with
  | String c s' =>
      if is_digit c
      then let '(ds, rest) := span_digits s' in (String c ds, rest)
      else ("", s)
  | "" => ("", "")
  end%string.

(** One or more digits. *)
Definition scan_digits1 (s : string) : Scan string :=
  match span_digits s with
  | (EmptyString, EmptyString) => unexpected_end
  | (EmptyString, _) => invalid_character
  | (ds, rest) => inr (ds, rest)
  end.

(** An optional exponent part. *)
Definition scan_exp (s : string) : Scan string :=
  match s with
  | String c s' =>
      if Ascii.eqb c "e" || Ascii.eqb c "E" then
        match s' with
        | String sg s'' =>
            if Ascii.eqb sg "+" || Ascii.eqb sg "-"
            then scan_map (fun ds => String c (String sg ds)) (scan_digits1 s'')
            else scan_map (String c) (scan_digits1 s')
        | "" => unexpected_end
        end
      else inr ("", s)
  | "" => inr ("", "")
  end%string.

(** An optional fraction part. *)
Definition scan_frac (s : string) : Scan string :=
  match s with
  | String c s' =>
      if Ascii.eqb c "." then scan_map (String c) (scan_digits1 s')
      else inr ("", s)
  | "" => inr ("", "")
  end%string.

(** The integer part: [0], or a non-zero digit and more digits. *)
Definition scan_int (s : string) : Scan string :=
  match s with
  | String c s' =>
      if Ascii.eqb c "0" then inr (String c "", s')
      else if in_range 49 57 c
      then let '(ds, rest) := span_digits s' in inr (String c ds, rest)
      else invalid_character
  | "" => unexpected_end
  end%string.

Definition scan_seq (p q : string -> Scan string) (s : string) : Scan string :=
  match p s with
  | inl e => inl e
  | inr (a, rest) => scan_map (fun b => (a ++ b)%string) (q rest)
  end.

Definition scan_number (s : string) : Scan string :=
  let unsigned := scan_seq scan_int (scan_seq scan_frac scan_exp) in
  match s with
  | String c s' =>
      if Ascii.eqb c "-" then scan_map (String c) (unsigned s') else unsigned s
  | "" => unexpected_end
  end%string.

(** The elements of an array after the first, up to the closing
    bracket.  [n] bounds the number of elements by the bytes left. *)
Fixpoint scan_elements (value : string -> Scan json) (n : nat) (s : string)
  : Scan (list json) :=
  match skip_space s with
  | "" => unexpected_end
  | String c s' =>
      if Ascii.eqb c "]" then inr ([], s')
      else if Ascii.eqb c "," then
        match n with
        | O => unexpected_end
        | S n' =>
            match value s' with
            | inl e => inl e
            | inr (v, rest) => scan_map (cons v) (scan_elements value n' rest)
            end
        end
      else invalid_character
  end%string.

(** One [key : value] member of an object. *)
Definition scan_member (value : string -> Scan json) (s : string)
  : Scan (string * json) :=
  match skip_space s with
  | "" => unexpected_end
  | String c s' =>
      if Ascii.eqb c dquote then
        match scan_string Plain s' with
        | inl e => inl e
        | inr (key, rest) =>
            match skip_space rest with
            | "" => unexpected_end
            | String d rest' =>
                if Ascii.eqb d ":"
                then scan_map (pair (unquote key)) (value rest')
                else invalid_character
            end
        end
      else invalid_character
  end%string.

(** The members of an object after the first, up to the closing brace. *)
Fixpoint scan_members (value : string -> Scan json) (n : nat) (s : string)
  : Scan (list (string * json)) :=
  match skip_space s with
  | "" => unexpected_end
  | String c s' =>
      if Ascii.eqb c "}" then inr ([], s')
      else if Ascii.eqb c "," then
        match n with
        | O => unexpected_end
        | S n' =>
            match scan_member value s' with
            | inl e => inl e
            | inr (m, rest) => scan_map (cons m) (scan_members value n' rest)
            end
        end
      else invalid_character
  end%string.

(** One JSON value.  [depth] bounds the nesting of arrays and objects;
    every level opens with a bracket, so the length of the input is
    enough. *)
Fixpoint scan_value (depth : nat) (s : string) : Scan json :=
  match skip_space s with
  | "" => unexpected_end
  | String c s' =>
      if Ascii.eqb c dquote then
        scan_map (fun raw => JString (unquote raw)) (scan_string Plain s')
      else if Ascii.eqb c "-" || is_digit c then
        scan_map JNumber (scan_number (String c s'))
      else if Ascii.eqb c "t" then
        scan_map (fun _ => JBool true) (scan_word "rue" s')
      else if Ascii.eqb c "f" then
        scan_map (fun _ => JBool false) (scan_word "alse" s')
      else if Ascii.eqb c "n" then
        scan_map (fun _ => JNull) (scan_word "ull" s')
      else
        match depth with
        | O => invalid_character
        | S depth' =>
            if Ascii.eqb c "[" then
              match skip_space s' with
              | "" => unexpected_end
              | String d s'' =>
                  if Ascii.eqb d "]" then inr (JArray [], s'')
                  else
                    match scan_value depth' s' with
                    | inl e => inl e
                    | inr (v, rest) =>
                        scan_map (fun vs => JArray (v :: vs))
                          (scan_elements (scan_value depth')
                             (String.length rest) rest)
                    end
              end
            else if Ascii.eqb c "{" then
              match skip_space s' with
              | "" => unexpected_end
              | String d s'' =>
                  if Ascii.eqb d "}" then inr (JObject [], s'')
                  else
                    match scan_member (scan_value depth') s' with
                    | inl e => inl e
                    | inr (m, rest) =>
                        scan_map (fun ms => JObject (m :: ms))
                          (scan_members (scan_value depth')
                             (String.length rest) rest)
                    end
              end
            else invalid_character
        end
  end%string.

(** [checkValid] and the scan of the top-level value: one value, then
    nothing but white space. *)
Definition scan (data : string) : string + json :=
  match scan_value (String.length data) data with
  | inl e => inl e
  | inr (v, rest) =>
      match skip_space rest with
      | EmptyString => inr v
      | _ => inl "invalid character after top-level value"%string
      end
  end.

(** *** Storing a value into the Go types *)

(** Stored value and the earliest type error met, if any: a value of
    the wrong kind is skipped and decoding goes on. *)
Definition Stored (A : Type) : Type := (A * option string)%type.

Definition first_error (e1 e2 : option string) : option string :=
  match e1 with
  | Some _ => e1
  | None => e2
  end.

Definition kind_of (j : json) : string :=
  match j with
  | JNull => "null"
  | JBool _ => "bool"
  | JNumber _ => "number"
  | JString _ => "string"
  | JArray _ => "array"
  | JObject _ => "object"
  end.

Definition UnmarshalTypeError (j : json) (goType : string) : string :=
  ("json: cannot unmarshal " ++ kind_of j ++ " into Go value of type " ++
   goType)%string.

(** A key of the input names a field when the two are equal under
    Unicode simple case folding.  The field names here are ASCII, so
    besides the two cases of each letter only the Kelvin sign (for k)
    and the long s (for s) can stand in. *)
Fixpoint equalFold (field key : string) : bool :=
  match field, key with
  | EmptyString, EmptyString => true
  | String a field', String b key' =>
      if N.ltb (code b) 128 then
        Ascii.eqb (lower_byte a) (lower_byte b) && equalFold field' key'
      else if Ascii.eqb (lower_byte a) "s" then
        match key' with
        | String b1 key'' =>
            N.eqb (code b) 197 && N.eqb (code b1) 191 && equalFold field' key''
        | EmptyString => false
        end
      else if Ascii.eqb (lower_byte a) "k" then
        match key' with
        | String b1 (String b2 key'') =>
            N.eqb (code b) 226 && N.eqb (code b1) 132 && N.eqb (code b2) 170 &&
            equalFold field' key''
        | _ => false
        end
      else false
  | _, _ => false
  end.

(** A [string] field: JSON null leaves it as it is. *)
Definition store_string (j : json) (old : string) : Stored string :=
  match j with
  | JNull => (old, None)
  | JString s => (s, None)
  | _ => (old, Some (UnmarshalTypeError j "string"))
  end.

(** A [bool] field. *)
Definition store_bool (j : json) (old : bool) : Stored bool :=
  match j with
  | JNull => (old, None)
  | JBool b => (b, None)
  | _ => (old, Some (UnmarshalTypeError j "bool"))
  end.

(** Sets one field of [old] from the value decoded for it. *)
Definition set_field {S A : Type} (st : Stored S) (get : S -> A)
    (store : A -> Stored A) (set : S -> A -> S) : Stored S :=
  let '(old, e) := st in
  let '(a, e') := store (get old) in
  (set old a, first_error e e').

Definition Profile_member (st : Stored Profile) (m : string * json)
  : Stored Profile :=
  let '(key, j) := m in
  if equalFold "first_name" key then
    set_field st FirstName (store_string j)
      (fun p x => mkProfile x (LastName p) (RealName p) (Title p) (Image p)
                    (Phone p) (Email p) (Status p))
  else if equalFold "last_name" key then
    set_field st LastName (store_string j)
      (fun p x => mkProfile (FirstName p) x (RealName p) (Title p) (Image p)
                    (Phone p) (Email p) (Status p))
  else if equalFold "real_name" key then
    set_field st RealName (store_string j)
      (fun p x => mkProfile (FirstName p) (LastName p) x (Title p) (Image p)
                    (Phone p) (Email p) (Status p))
  else if equalFold "title" key then
    set_field st Title (store_string j)
      (fun p x => mkProfile (FirstName p) (LastName p) (RealName p) x (Image p)
                    (Phone p) (Email p) (Status p))
  else if equalFold "image_192" key then
    set_field st Image (store_string j)
      (fun p x => mkProfile (FirstName p) (LastName p) (RealName p) (Title p) x
                    (Phone p) (Email p) (Status p))
  else if equalFold "phone" key then
    set_field st Phone (store_string j)
      (fun p x => mkProfile (FirstName p) (LastName p) (RealName p) (Title p)
                    (Image p) x (Email p) (Status p))
  else if equalFold "email" key then
    set_field st Email (store_string j)
      (fun p x => mkProfile (FirstName p) (LastName p) (RealName p) (Title p)
                    (Image p) (Phone p) x (Status p))
  else if equalFold "status_text" key then
    set_field st Status (store_string j)
      (fun p x => mkProfile (FirstName p) (LastName p) (RealName p) (Title p)
                    (Image p) (Phone p) (Email p) x)
  else st.

(** A [Profile]: the members of the object are stored one by one, in
    the order written, into the value already there; fields the object
    does not name keep what they hold. *)
Definition store_Profile (j : json) (old : Profile) : Stored Profile :=
  match j with
  | JNull => (old, None)
  | JObject members => fold_left Profile_member members (old, None)
  | _ => (old, Some (UnmarshalTypeError j "main.Profile"))
  end.

Definition User_member (st : Stored User) (m : string * json) : Stored User :=
  let '(key, j) := m in
  if equalFold "name" key then
    set_field st Name (store_string j)
      (fun u x => mkUser x (Id u) (TeamId u) (IsBot u) (Deleted u)
                    (UserProfile u))
  else if equalFold "id" key then
    set_field st Id (store_string j)
      (fun u x => mkUser (Name u) x (TeamId u) (IsBot u) (Deleted u)
                    (UserProfile u))
  else if equalFold "team_id" key then
    set_field st TeamId (store_string j)
      (fun u x => mkUser (Name u) (Id u) x (IsBot u) (Deleted u)
                    (UserProfile u))
  else if equalFold "is_bot" key then
    set_field st IsBot (store_bool j)
      (fun u x => mkUser (Name u) (Id u) (TeamId u) x (Deleted u)
                    (UserProfile u))
  else if equalFold "deleted" key then
    set_field st Deleted (store_bool j)
      (fun u x => mkUser (Name u) (Id u) (TeamId u) (IsBot u) x
                    (UserProfile u))
  else if equalFold "profile" key then
    set_field st UserProfile (store_Profile j)
      (fun u x => mkUser (Name u) (Id u) (TeamId u) (IsBot u) (Deleted u) x)
  else st.

Definition store_User (j : json) (old : User) : Stored User :=
  match j with
  | JNull => (old, None)
  | JObject members => fold_left User_member members (old, None)
  | _ => (old, Some (UnmarshalTypeError j "main.User"))
  end.

(** The zero value of [User]. *)
Definition zeroUser : User :=
  mkUser "" "" "" false false (mkProfile "" "" "" "" "" "" "" "").

(** The elements of an array stored into a slice: element [i] is
    decoded into the slice's element [i] when the slice already has
    one, and into a zero value otherwise; the slice ends up as long as
    the array. *)
Fixpoint store_elements (items : list json) (old : list User)
  : Stored (list User) :=
  match items with
  | [] => ([], None)
  | j :: items' =>
      let '(cur, old') :=
        match old with
        | [] => (zeroUser, [])
        | u :: old' => (u, old')
        end in
      let '(u, e) := store_User j cur in
      let '(us, e') := store_elements items' old' in
      (u :: us, first_error e e')
  end.

(** A [[]User] field: JSON null makes it nil. *)
Definition store_Members (j : json) (old : list User) : Stored (list User) :=
  match j with
  | JNull => ([], None)
  | JArray items => store_elements items old
  | _ => (old, Some (UnmarshalTypeError j "[]main.User"))
  end.

(** [UserList] has no usable tags (the one on [Members] is not in the
    [key:"value"] form, so it is ignored): both fields go by their Go
    names. *)
Definition UserList_member (st : Stored UserList) (m : string * json)
  : Stored UserList :=
  let '(key, j) := m in
  if equalFold "SlackTeam" key then
    set_field st SlackTeam (store_string j)
      (fun ul x => mkUserList x (Members ul))
  else if equalFold "Members" key then
    set_field st Members (store_Members j)
      (fun ul x => mkUserList (SlackTeam ul) x)
  else st.

Definition store_UserList (j : json) (old : UserList) : Stored UserList :=
  match j with
  | JNull => (old, None)
  | JObject members => fold_left UserList_member members (old, None)
  | _ => (old, Some (UnmarshalTypeError j "main.UserList"))
  end.

(** [json.Unmarshal(data, &v)] for [v] of type [UserList]: input that
    is not a JSON text is refused before anything is stored. *)
Definition Unmarshal (data : string) (v : UserList) : UserList * option string :=
  match scan data with
  | inl e => (v, Some e)
  | inr j => store_UserList j v
  end.

End JSON.

(** The library as the examples below run it.  Their names are ASCII,
    where [strings.ToLower] never reaches the Unicode tables. *)
Definition golib : GoLib :=
  {| unicode_ToLower := fun s => s;
     json_Unmarshal := JSON.Unmarshal |}.

(** JSON text for the examples, written with ['] where the text has
    the double quote. *)
Definition json_text (s : string) : string :=
  map_bytes (fun c => if Ascii.eqb c "'" then JSON.dquote else c) s.

(** ** Sample data *)

Module Sample.

Definition cfg : config :=
  {| EmailFilter := "tink.se"; SlackApiToken := "xoxp-1"; cfg_SlackTeam := "T1" |}.

(** The [userlist] that [init] leaves for [cfg]. *)
Definition userlist0 : UserList := {| SlackTeam := "T1"; Members := [] |}.

Definition person (name realName email : string) : User :=
  {| Name := name; Id := ""; TeamId := ""; IsBot := false; Deleted := false;
     UserProfile := mkProfile "" "" realName "" "" "" email "" |}.

(** A run of the template that succeeds, cut down to what the examples
    look at: an opening chunk, the names in the order rendered, and
    the closing chunk. *)
Definition page (data : UserList) : list string * option string :=
  ("<html>" :: map (fun u => RealName (UserProfile u)) (Members data)
   ++ ["</html>"], None).

(** A run of the template that fails once its first chunk is out. *)
Definition page_cut_short (data : UserList) : list string * option string :=
  (["<html>"], Some "write: broken pipe").

(** A run of the template that fails before it writes anything. *)
Definition page_refused (data : UserList) : list string * option string :=
  ([], Some "template: index: incomplete").

(** An upstream that answers with [status] and [body]. *)
Definition answers (status : Z) (body : string)
    (run : UserList -> list string * option string) : Upstream :=
  {| client_Get := fun _ => inr (mkResponse status body None);
     template_Execute := run |}.

(** An upstream that cannot be reached. *)
Definition unreachable : Upstream :=
  {| client_Get := fun _ => inl "urlfetch: DEADLINE_EXCEEDED";
     template_Execute := page |}.

Definition alice_only : string :=
  json_text
    "{'ok':true,'members':[{'name':'al','profile':{'real_name':'Alice','email':'alice@tink.se'}}]}".

(** Two members, Bob listed before alice. *)
Definition bob_then_alice : string :=
  json_text
    "{'ok':true,'members':[{'name':'b','profile':{'real_name':'Bob','email':'bob@tink.se'}},{'name':'a','profile':{'real_name':'alice','email':'alice@tink.se'}}]}".

(** What Slack answers when it refuses the call. *)
Definition refusal : string := json_text "{'ok':false,'error':'ratelimited'}".

End Sample.

(** ** Specification vocabulary *)

(** [s] ends with [suffix]: some prefix completes [suffix] to [s]. *)
Definition ends_with (s suffix : string) : Prop :=
  exists p : string, s = (p ++ suffix)%string.

(** What the filter is to keep: members that are neither deleted nor
    bots and whose email ends with the configured suffix. *)
Definition retained (cfg : config) (u : User) : Prop :=
  Deleted u = false /\ IsBot u = false /\
  ends_with (Email (UserProfile u)) (EmailFilter cfg).

(** Member records can be compared field by field. *)
Definition Profile_eq_dec (p q : Profile) : {p = q} + {p <> q}.
Proof. decide equality; apply string_dec. Defined.

Definition User_eq_dec (u v : User) : {u = v} + {u <> v}.
Proof.
  decide equality; try apply string_dec; try apply bool_dec;
    apply Profile_eq_dec.
Defined.

(** Lower-casing as the specification means it, written down without
    the functions of the handler: a capital letter of the alphabet
    becomes the small letter at the same place, any other byte stays.
    A name with a byte outside ASCII takes the form the Unicode tables
    of the library give it. *)
Definition capital_letters : string := "ABCDEFGHIJKLMNOPQRSTUVWXYZ".
Definition small_letters : string := "abcdefghijklmnopqrstuvwxyz".

Definition small_of (c : ascii) : ascii :=
  match String.index 0 (String c "") capital_letters with
  | Some i =>
      match String.get i small_letters with
      | Some d => d
      | None => c
      end
  | None => c
  end.

Definition plain_ascii (s : string) : bool :=
  forallb (fun c => Nat.ltb (nat_of_ascii c) 128) (list_ascii_of_string s).

Definition lower_cased (L : GoLib) (s : string) : string :=
  if plain_ascii s
  then string_of_list_ascii (map small_of (list_ascii_of_string s))
  else unicode_ToLower L s.

(** The lower-cased real name of a member. *)
Definition lowered_name (L : GoLib) (u : User) : string :=
  lower_cased L (RealName (UserProfile u)).

(** What holds of the process-wide [userlist] between requests: its
    members all pass the filter and stand in ascending order of their
    lower-cased real names. *)
Definition userlist_ok (L : GoLib) (cfg : config) (ul : UserList) : Prop :=
  Forall (retained cfg) (Members ul) /\
  StronglySorted
    (fun a b => String.leb (lowered_name L a) (lowered_name L b) = true)
    (Members ul).

(** The same, of the state a served request leaves; a process that
    has exited leaves none. *)
Definition leaves_ok (L : GoLib) (cfg : config) (r : Result unit) : Prop :=
  match r with
  | Returned _ p => userlist_ok L cfg (userlist p)
  | Exited _ _ => True
  end.

(** The condition of the filter when no suffix is looked at. *)
Definition active (u : User) : bool := negb (Deleted u) && negb (IsBot u).

(** Strictly smaller key: the shape of the comparison given to the
    sort. *)
Definition key_lt {A : Type} (key : A -> string) (a b : A) : bool :=
  String.ltb (key a) (key b).

(** Ascending order of keys. *)
Definition key_le {A : Type} (key : A -> string) (a b : A) : Prop :=
  String.leb (key a) (key b) = true.

(** The elements with key [k]. *)
Definition has_key {A : Type} (key : A -> string) (k : string) (a : A) : bool :=
  String.eqb (key a) k.

(** [a] stands somewhere in front of [b] in [l]. *)
Definition precedes {A : Type} (l : list A) (a b : A) : Prop :=
  exists l1 l2 l3, l = l1 ++ a :: l2 ++ b :: l3.

(** [l1] is obtained from [l2] by deleting elements. *)
Inductive Subseq {A : Type} : list A -> list A -> Prop :=
| Subseq_nil : Subseq [] []
| Subseq_skip : forall x l1 l2, Subseq l1 l2 -> Subseq l1 (x :: l2)
| Subseq_cons : forall x l1 l2, Subseq l1 l2 -> Subseq (x :: l1) (x :: l2).

#[local] Hint Constructors Subseq : core.

(** ** Facts about strings *)

Lemma length_append (s t : string) :
  String.length (s ++ t)%string = String.length s + String.length t.
Proof. induction s as [|a s IH]; simpl; [reflexivity | now rewrite IH]. Qed.

Lemma append_nil_r (s : string) : (s ++ "")%string = s.
Proof. induction s as [|a s IH]; simpl; [reflexivity | now rewrite IH]. Qed.

Lemma substring_all (s : string) : substring 0 (String.length s) s = s.
Proof. induction s as [|a s IH]; simpl; [reflexivity | now rewrite IH]. Qed.

Lemma substring_skip (p s : string) (m : nat) :
  substring (String.length p) m (p ++ s)%string = substring 0 m s.
Proof. induction p as [|a p IH]; simpl; [reflexivity | exact IH]. Qed.

(** A string is its first [n] bytes followed by the rest. *)
Lemma substring_split (s : string) (n : nat) :
  n <= String.length s ->
  s = (substring 0 n s ++ substring n (String.length s - n) s)%string.
Proof.
  revert n; induction s as [|a s IH]; intros [|n] H; simpl in *;
    try reflexivity; try lia.
  - now rewrite substring_all.
  - rewrite <- IH by lia. reflexivity.
Qed.

Lemma HasSuffix_ends_with (s suffix : string) :
  HasSuffix s suffix = true <-> ends_with s suffix.
Proof.
  unfold HasSuffix, ends_with. rewrite andb_true_iff, Nat.leb_le, String.eqb_eq.
  split.
  - intros [Hlen Hsub].
    exists (substring 0 (String.length s - String.length suffix) s).
    pose proof (substring_split s (String.length s - String.length suffix)) as E.
    replace (String.length s - (String.length s - String.length suffix))
      with (String.length suffix) in E by lia.
    rewrite Hsub in E. apply E. lia.
  - intros [p ->]. rewrite length_append. split; [lia|].
    replace (String.length p + String.length suffix - String.length suffix)
      with (String.length p) by lia.
    rewrite substring_skip. apply substring_all.
Qed.

Lemma HasSuffix_empty (s : string) : HasSuffix s "" = true.
Proof. apply HasSuffix_ends_with. exists s. now rewrite append_nil_r. Qed.

(** ** The filter loop is [List.filter] *)

Lemma filterUsers_loop (c : config) (members acc : list User) :
  fold_left
    (fun filteredUsers user =>
       if keep c user then filteredUsers ++ [user] else filteredUsers)
    members acc
  = acc ++ filter (keep c) members.
Proof.
  revert acc; induction members as [|u members IH]; intros acc; simpl.
  - now rewrite app_nil_r.
  - rewrite IH. destruct (keep c u); [|reflexivity].
    now rewrite <- app_assoc.
Qed.

Lemma filterUsers_filter (c : config) (members : list User) :
  filterUsers c members = filter (keep c) members.
Proof. unfold filterUsers. now rewrite filterUsers_loop. Qed.

Lemma filter_Subseq {A : Type} (f : A -> bool) (l : list A) :
  Subseq (filter f l) l.
Proof. induction l as [|x l IH]; simpl; [|destruct (f x)]; auto. Qed.

Lemma filter_fixpoint {A : Type} (f : A -> bool) (l : list A) :
  filter f (filter f l) = filter f l.
Proof.
  induction l as [|x l IH]; simpl; [reflexivity|].
  destruct (f x) eqn:E; simpl; [rewrite E, IH|]; auto.
Qed.

(** ** Order of bytes strings *)

Lemma ltb_leb (s t : string) : String.ltb s t = true -> String.leb s t = true.
Proof. unfold String.ltb, String.leb. now destruct (String.compare s t). Qed.

Lemma ltb_false_leb (s t : string) :
  String.ltb s t = false -> String.leb t s = true.
Proof.
  unfold String.ltb, String.leb. rewrite (String.compare_antisym s t).
  destruct (String.compare t s); simpl; congruence.
Qed.

Lemma compare_refl (s : string) : String.compare s s = Eq.
Proof.
  pose proof (String.compare_antisym s s) as E.
  destruct (String.compare s s); simpl in E; congruence.
Qed.

Lemma ltb_irrefl (s : string) : String.ltb s s = false.
Proof. unfold String.ltb. now rewrite compare_refl. Qed.

Lemma ascii_compare_trans (a b c : ascii) :
  Ascii.compare a b = Lt -> Ascii.compare b c = Lt -> Ascii.compare a c = Lt.
Proof.
  unfold Ascii.compare. rewrite !N.compare_lt_iff. apply N.lt_trans.
Qed.

Lemma compare_lt_trans (s t u : string) :
  String.compare s t = Lt -> String.compare t u = Lt -> String.compare s u = Lt.
Proof.
  revert t u; induction s as [|a s IH]; intros [|b t] [|c u]; simpl;
    try discriminate; try reflexivity.
  destruct (Ascii.compare a b) eqn:Eab; try discriminate;
    destruct (Ascii.compare b c) eqn:Ebc; try discriminate; intros H1 H2.
  - apply Ascii.compare_eq_iff in Eab, Ebc. subst.
    replace (Ascii.compare c c) with Eq
      by (symmetry; unfold Ascii.compare; apply N.compare_refl).
    eauto.
  - apply Ascii.compare_eq_iff in Eab. subst. now rewrite Ebc.
  - apply Ascii.compare_eq_iff in Ebc. subst. now rewrite Eab.
  - now rewrite (ascii_compare_trans a b c).
Qed.

Lemma leb_trans (s t u : string) :
  String.leb s t = true -> String.leb t u = true -> String.leb s u = true.
Proof.
  unfold String.leb.
  destruct (String.compare s t) eqn:E1; try discriminate;
    destruct (String.compare t u) eqn:E2; try discriminate; intros _ _.
  - apply String.compare_eq_iff in E1, E2. subst. now rewrite compare_refl.
  - apply String.compare_eq_iff in E1. subst. now rewrite E2.
  - apply String.compare_eq_iff in E2. subst. now rewrite E1.
  - now rewrite (compare_lt_trans s t u).
Qed.

Lemma leb_refl (s : string) : String.leb s s = true.
Proof. unfold String.leb. now rewrite compare_refl. Qed.

Lemma leb_empty (s : string) : String.leb "" s = true.
Proof. now destruct s. Qed.

Lemma leb_empty_inv (s : string) : String.leb s "" = true -> s = "".
Proof. now destruct s. Qed.

(** ** Order of the elements of a list *)

Lemma precedes_cons {A : Type} (x : A) (l : list A) (a b : A) :
  precedes l a b -> precedes (x :: l) a b.
Proof. intros (l1 & l2 & l3 & ->). now exists (x :: l1), l2, l3. Qed.

Lemma precedes_head {A : Type} (l : list A) (a b : A) :
  In b l -> precedes (a :: l) a b.
Proof.
  intros H. apply in_split in H as (l2 & l3 & ->). now exists [], l2, l3.
Qed.

Lemma precedes_inv {A : Type} (x : A) (l : list A) (a b : A) :
  precedes (x :: l) a b -> (x = a /\ In b l) \/ precedes l a b.
Proof.
  intros ([|y l1] & l2 & l3 & E); simpl in E; injection E as -> ->.
  - left. split; [reflexivity|]. apply in_or_app. right. now left.
  - right. now exists l1, l2, l3.
Qed.

Lemma precedes_filter {A : Type} (f : A -> bool) (l : list A) (a b : A) :
  precedes (filter f l) a b <-> precedes l a b /\ f a = true /\ f b = true.
Proof.
  split.
  - induction l as [|x l IH]; simpl.
    + intros ([|? ?] & ? & ? & E); discriminate.
    + destruct (f x) eqn:Fx.
      * intros H. apply precedes_inv in H as [[-> Hb] | H].
        -- apply filter_In in Hb as [Hb Fb].
           repeat split; auto using precedes_head.
        -- destruct (IH H) as (? & ? & ?). auto using precedes_cons.
      * intros H. destruct (IH H) as (? & ? & ?). auto using precedes_cons.
  - intros ((l1 & l2 & l3 & ->) & Fa & Fb).
    exists (filter f l1), (filter f l2), (filter f l3).
    rewrite filter_app. simpl. rewrite Fa, filter_app. simpl. now rewrite Fb.
Qed.

Lemma Subseq_precedes {A : Type} (l1 l2 : list A) (a b : A) :
  Subseq l1 l2 -> precedes l1 a b -> precedes l2 a b.
Proof.
  induction 1 as [|x l1 l2 _ IH|x l1 l2 HS IH]; intros H.
  - exact H.
  - auto using precedes_cons.
  - apply precedes_inv in H as [[-> Hb] | H].
    + apply precedes_head.
      clear IH. induction HS; simpl in *; intuition.
    + auto using precedes_cons.
Qed.

Lemma Subseq_In {A : Type} (l1 l2 : list A) (a : A) :
  Subseq l1 l2 -> In a l1 -> In a l2.
Proof. induction 1; simpl; intuition. Qed.

Lemma Subseq_length {A : Type} (l1 l2 : list A) :
  Subseq l1 l2 -> length l1 <= length l2.
Proof. induction 1; simpl; lia. Qed.

(** ** [SliceStable] sorts, and keeps equal keys in order *)

Lemma StronglySorted_snoc {A : Type} (R : A -> A -> Prop) (l : list A) (x : A) :
  StronglySorted R l -> Forall (fun y => R y x) l -> StronglySorted R (l ++ [x]).
Proof.
  induction 1 as [|y l HS IH HF]; intros Hx; simpl.
  - repeat constructor.
  - inversion Hx; subst. constructor; [auto|].
    apply Forall_app. split; [assumption | now constructor].
Qed.

Lemma StronglySorted_rev {A : Type} (R : A -> A -> Prop) (l : list A) :
  StronglySorted (fun a b => R b a) l -> StronglySorted R (rev l).
Proof.
  induction 1 as [|x l HS IH HF]; simpl; [constructor|].
  apply StronglySorted_snoc; [assumption|].
  apply Forall_rev. exact HF.
Qed.

Section StableSort.

Context {A : Type} (key : A -> string).

(** The comparison handed to the sort: strictly smaller key. *)
Local Abbreviation lt := (key_lt key).
Local Abbreviation le := (key_le key).
Local Abbreviation at_key := (has_key key).

(** Where the new element comes to rest: behind it are the elements
    it was less than. *)
Lemma sink_split (x : A) (before : list A) :
  exists passed rest,
    before = passed ++ rest /\
    sink lt x before = passed ++ x :: rest /\
    Forall (fun y => lt x y = true) passed /\
    (forall y rest', rest = y :: rest' -> lt x y = false).
Proof.
  induction before as [|y before IH]; simpl.
  - exists [], []. repeat split; auto. discriminate.
  - destruct (lt x y) eqn:E.
    + destruct IH as (passed & rest & -> & -> & HF & Hr).
      exists (y :: passed), rest. repeat split; auto.
    + exists [], (y :: before). repeat split; auto.
      intros ? ? [= <- <-]. exact E.
Qed.

Lemma sink_Permutation (x : A) (before : list A) :
  Permutation (x :: before) (sink lt x before).
Proof.
  destruct (sink_split x before) as (passed & rest & -> & -> & _).
  apply Permutation_middle.
Qed.

Lemma sink_sorted (x : A) (before : list A) :
  StronglySorted (fun a b => le b a) before ->
  StronglySorted (fun a b => le b a) (sink lt x before).
Proof.
  induction 1 as [|y before HS IH HF]; simpl.
  - repeat constructor.
  - destruct (lt x y) eqn:E.
    + constructor; [assumption|].
      eapply Permutation_Forall; [apply sink_Permutation|].
      constructor; [|assumption].
      apply ltb_leb. exact E.
    + apply ltb_false_leb in E.
      constructor; [now constructor|].
      constructor; [exact E|].
      eapply Forall_impl; [|exact HF].
      intros z Hz. unfold key_le in *. eapply leb_trans; eassumption.
Qed.

Lemma sink_stable (k : string) (x : A) (before : list A) :
  filter (at_key k) (rev (sink lt x before))
  = filter (at_key k) (rev before) ++ filter (at_key k) [x].
Proof.
  destruct (sink_split x before) as (passed & rest & -> & -> & HF & _).
  rewrite !rev_app_distr. simpl. rewrite <- app_assoc. simpl.
  rewrite !filter_app. simpl.
  destruct (at_key k x) eqn:Kx; [|now rewrite app_nil_r].
  assert (filter (at_key k) (rev passed) = []) as ->.
  { apply Forall_rev in HF. revert HF.
    generalize (rev passed). intros l HF.
    induction HF as [|y l Hy _ IH]; simpl; [reflexivity|].
    unfold has_key in *. apply String.eqb_eq in Kx.
    destruct (String.eqb (key y) k) eqn:Ky; [|exact IH].
    apply String.eqb_eq in Ky. unfold lt in Hy.
    rewrite Kx, Ky, ltb_irrefl in Hy. discriminate. }
  now rewrite app_nil_r.
Qed.

Lemma SliceStable_loop_Permutation (x before : list A) :
  Permutation (rev before ++ x)
              (rev (fold_left (fun b e => sink lt e b) x before)).
Proof.
  revert before; induction x as [|e x IH]; intros before; simpl.
  - now rewrite app_nil_r.
  - rewrite <- IH.
    rewrite <- (Permutation_rev (sink lt e before)).
    rewrite <- sink_Permutation. rewrite <- (Permutation_rev before).
    symmetry. apply Permutation_middle.
Qed.

Lemma SliceStable_loop_sorted (x before : list A) :
  StronglySorted (fun a b => le b a) before ->
  StronglySorted (fun a b => le b a)
                 (fold_left (fun b e => sink lt e b) x before).
Proof.
  revert before; induction x as [|e x IH]; intros before H; simpl.
  - exact H.
  - apply IH, sink_sorted, H.
Qed.

Lemma SliceStable_loop_stable (k : string) (x before : list A) :
  filter (at_key k) (rev (fold_left (fun b e => sink lt e b) x before))
  = filter (at_key k) (rev before) ++ filter (at_key k) x.
Proof.
  revert before; induction x as [|e x IH]; intros before; simpl.
  - now rewrite app_nil_r.
  - rewrite IH, sink_stable. simpl. rewrite <- app_assoc.
    now destruct (at_key k e).
Qed.

Lemma SliceStable_Permutation (x : list A) :
  Permutation x (SliceStable lt x).
Proof. exact (SliceStable_loop_Permutation x []). Qed.

Lemma SliceStable_sorted (x : list A) :
  StronglySorted le (SliceStable lt x).
Proof.
  apply StronglySorted_rev, SliceStable_loop_sorted. constructor.
Qed.

Lemma SliceStable_stable (k : string) (x : list A) :
  filter (at_key k) (SliceStable lt x) = filter (at_key k) x.
Proof. exact (SliceStable_loop_stable k x []). Qed.

(** Elements of equal key stand in the same order before and after. *)
Lemma SliceStable_precedes (x : list A) (a b : A) :
  key a = key b ->
  (precedes (SliceStable lt x) a b <-> precedes x a b).
Proof.
  intros E.
  assert (Ka : at_key (key a) a = true) by apply String.eqb_refl.
  assert (Kb : at_key (key a) b = true)
    by (unfold has_key; rewrite E; apply String.eqb_refl).
  pose proof (precedes_filter (at_key (key a)) (SliceStable lt x) a b) as H1.
  pose proof (precedes_filter (at_key (key a)) x a b) as H2.
  rewrite SliceStable_stable in H1. tauto.
Qed.

(** The elements with the empty key come first, in their old order. *)
Lemma sorted_empty_key_first (l : list A) :
  StronglySorted le l ->
  l = filter (at_key "") l ++ filter (fun a => negb (at_key "" a)) l
  /\ Forall (fun a => key a <> "") (filter (fun a => negb (at_key "" a)) l).
Proof.
  intros HS. split.
  - induction HS as [|x l HS IH HF]; simpl; [reflexivity|].
    destruct (at_key "" x) eqn:Kx; simpl.
    + now rewrite <- IH.
    + assert (filter (at_key "") l = []) as E.
      { clear IH HS. induction HF as [|y l Hy _ IH]; simpl; [reflexivity|].
        destruct (at_key "" y) eqn:Ky; [|exact IH].
        unfold has_key, key_le in *. apply String.eqb_eq in Ky.
        rewrite Ky in Hy. apply leb_empty_inv in Hy.
        rewrite Hy, String.eqb_refl in Kx. discriminate. }
      rewrite E in *. simpl in *. now rewrite <- IH.
  - apply Forall_forall. intros a Ha. apply filter_In in Ha as [_ Ha].
    unfold has_key in Ha. intros E. rewrite E in Ha. discriminate.
Qed.

(** A sorted list whose keys are stable with respect to [x] is the
    list [SliceStable] returns: the contract of a stable sort leaves
    no freedom. *)
Lemma stable_sorted_unique (l1 l2 : list A) :
  StronglySorted le l1 -> StronglySorted le l2 ->
  (forall k, filter (at_key k) l1 = filter (at_key k) l2) ->
  l1 = l2.
Proof.
  intros H1; revert l2; induction H1 as [|x l1 HS1 IH HF1];
    intros l2 H2 Hk.
  - destruct l2 as [|y l2]; [reflexivity|].
    specialize (Hk (key y)). simpl in Hk. unfold has_key in Hk.
    rewrite String.eqb_refl in Hk. discriminate.
  - destruct H2 as [|y l2 HS2 HF2].
    { specialize (Hk (key x)). simpl in Hk. unfold has_key in Hk.
      rewrite String.eqb_refl in Hk. discriminate. }
    assert (Hin : forall k a l l', filter (at_key k) l = filter (at_key k) l' ->
                   In a l -> key a = k -> In a l').
    { intros k a l l' E Ha Ka.
      assert (In a (filter (at_key k) l)) as Hf
        by (apply filter_In; split; [assumption|];
            unfold has_key; rewrite Ka; apply String.eqb_refl).
      rewrite E in Hf. now apply filter_In in Hf. }
    assert (Exy : key x = key y).
    { apply String.leb_antisym.
      - assert (In y (x :: l1)) as [-> | Hy]
          by (apply (Hin (key y) y (y :: l2));
              [symmetry; apply Hk | now left | reflexivity]).
        + apply leb_refl.
        + rewrite Forall_forall in HF1. now apply HF1.
      - assert (In x (y :: l2)) as [-> | Hx]
          by (apply (Hin (key x) x (x :: l1));
              [apply Hk | now left | reflexivity]).
        + apply leb_refl.
        + rewrite Forall_forall in HF2. now apply HF2. }
    pose proof (Hk (key x)) as Hx. simpl in Hx.
    unfold has_key in Hx. rewrite <- Exy, String.eqb_refl in Hx.
    injection Hx as -> _. f_equal. apply IH; [assumption|].
    intros k. specialize (Hk k). simpl in Hk.
    destruct (at_key k y); [now injection Hk | exact Hk].
Qed.

(** Any list that meets the contract of [sort.SliceStable] for [x]
    (sorted, equal keys in the order of [x]) is the list the model
    returns, whatever the algorithm that produced it. *)
Lemma SliceStable_unique (x l : list A) :
  StronglySorted le l ->
  (forall k, filter (at_key k) l = filter (at_key k) x) ->
  l = SliceStable lt x.
Proof.
  intros HS Hk. apply stable_sorted_unique.
  - exact HS.
  - apply SliceStable_sorted.
  - intros k. now rewrite SliceStable_stable.
Qed.

End StableSort.

(** ** The paths through [indexHandler] *)

Section Paths.

Variables (L : GoLib) (cfg : config) (up : Upstream) (ul : UserList).

(** [client.Get] fails: the error text is sent with status 500. *)
Lemma serve_Get_error (err : string) :
  client_Get up (users_list_url cfg) = inl err ->
  serve L cfg up ul
  = Returned tt
      {| userlist := ul;
         w := {| wroteHeader := Some StatusInternalServerError;
                 written := (err ++ newline)%string |};
         trace := [EvGet (users_list_url cfg);
                   EvHttpError err StatusInternalServerError] |}.
Proof.
  intros H. unfold serve, indexHandler, bind, do_Get, emit, ret. simpl.
  rewrite H. reflexivity.
Qed.

(** The body does not decode: the process exits. *)
Lemma serve_Unmarshal_error (resp : Response) (e : string) :
  client_Get up (users_list_url cfg) = inr resp ->
  snd (json_Unmarshal L (ReadAll_bytes resp) ul) = Some e ->
  serve L cfg up ul
  = Exited 1
      {| userlist := fst (json_Unmarshal L (ReadAll_bytes resp) ul);
         w := newResponseWriter;
         trace := [EvGet (users_list_url cfg); EvReadAll;
                   EvUnmarshal (ReadAll_bytes resp); EvLogFatal e] |}.
Proof.
  intros H E. unfold serve, indexHandler, bind, do_Get, emit, ret. simpl.
  rewrite H. simpl. rewrite E. reflexivity.
Qed.

(** The body decodes and the template runs through. *)
Lemma serve_Execute_ok (resp : Response) :
  client_Get up (users_list_url cfg) = inr resp ->
  snd (json_Unmarshal L (ReadAll_bytes resp) ul) = None ->
  snd (template_Execute up (rendered_data L cfg ul resp)) = None ->
  serve L cfg up ul
  = Returned tt
      {| userlist := rendered_data L cfg ul resp;
         w := fold_left Write (fst (template_Execute up (rendered_data L cfg ul resp)))
                newResponseWriter;
         trace := [EvGet (users_list_url cfg); EvReadAll;
                   EvUnmarshal (ReadAll_bytes resp);
                   EvExecute (rendered_data L cfg ul resp)] |}.
Proof.
  intros H E X. unfold serve, indexHandler, bind, do_Get, emit, ret. simpl.
  rewrite H. simpl. rewrite E. simpl.
  fold (rendered_data L cfg ul resp). rewrite X. reflexivity.
Qed.

(** The body decodes and the template fails. *)
Lemma serve_Execute_error (resp : Response) (e : string) :
  client_Get up (users_list_url cfg) = inr resp ->
  snd (json_Unmarshal L (ReadAll_bytes resp) ul) = None ->
  snd (template_Execute up (rendered_data L cfg ul resp)) = Some e ->
  serve L cfg up ul
  = Returned tt
      {| userlist := rendered_data L cfg ul resp;
         w := http_Error_writer
                (fold_left Write
                   (fst (template_Execute up (rendered_data L cfg ul resp)))
                   newResponseWriter)
                oops StatusInternalServerError;
         trace := [EvGet (users_list_url cfg); EvReadAll;
                   EvUnmarshal (ReadAll_bytes resp);
                   EvExecute (rendered_data L cfg ul resp);
                   EvLogPrintf
                     ("Failed to execute index template: " ++ e ++ newline);
                   EvHttpError oops StatusInternalServerError] |}.
Proof.
  intros H E X. unfold serve, indexHandler, bind, do_Get, emit, ret. simpl.
  rewrite H. simpl. rewrite E. simpl.
  fold (rendered_data L cfg ul resp). rewrite X. reflexivity.
Qed.

(** Whatever the template is executed on is the decoded list,
    filtered and sorted. *)
Lemma executed_is_rendered_data (data : UserList) :
  In data (executed (trace (final_proc (serve L cfg up ul)))) ->
  exists resp,
    client_Get up (users_list_url cfg) = inr resp /\
    snd (json_Unmarshal L (ReadAll_bytes resp) ul) = None /\
    data = rendered_data L cfg ul resp.
Proof.
  destruct (client_Get up (users_list_url cfg)) as [err|resp] eqn:H.
  - rewrite (serve_Get_error err H). simpl. tauto.
  - destruct (snd (json_Unmarshal L (ReadAll_bytes resp) ul)) as [e|] eqn:E.
    + rewrite (serve_Unmarshal_error resp e H E). simpl. tauto.
    + destruct (snd (template_Execute up (rendered_data L cfg ul resp))) as [x|] eqn:X.
      * rewrite (serve_Execute_error resp x H E X). simpl.
        intros [<- | []]. eauto.
      * rewrite (serve_Execute_ok resp H E X). simpl.
        intros [<- | []]. eauto.
Qed.

End Paths.

(** The answer depends on the [userlist] a request starts from only
    through what [json.Unmarshal] makes of it. *)
Lemma answer_depends_on_decoding (L : GoLib) (cfg : config) (up : Upstream)
    (ul ul' : UserList) :
  (forall body, json_Unmarshal L body ul = json_Unmarshal L body ul') ->
  http_response (serve L cfg up ul) = http_response (serve L cfg up ul')
  /\ executed (trace (final_proc (serve L cfg up ul)))
     = executed (trace (final_proc (serve L cfg up ul'))).
Proof.
  intros D.
  destruct (client_Get up (users_list_url cfg)) as [err|resp] eqn:H.
  - rewrite (serve_Get_error L cfg up ul err H),
      (serve_Get_error L cfg up ul' err H). now split.
  - assert (R : rendered_data L cfg ul resp = rendered_data L cfg ul' resp)
      by (unfold rendered_data; now rewrite D).
    destruct (snd (json_Unmarshal L (ReadAll_bytes resp) ul)) as [e|] eqn:E.
    + rewrite (serve_Unmarshal_error L cfg up ul resp e H E).
      rewrite D in E.
      rewrite (serve_Unmarshal_error L cfg up ul' resp e H E). now split.
    + destruct (snd (template_Execute up (rendered_data L cfg ul resp)))
        as [x|] eqn:X.
      * rewrite (serve_Execute_error L cfg up ul resp x H E X).
        rewrite D in E. rewrite R in X.
        rewrite (serve_Execute_error L cfg up ul' resp x H E X). rewrite R.
        now split.
      * rewrite (serve_Execute_ok L cfg up ul resp H E X).
        rewrite D in E. rewrite R in X.
        rewrite (serve_Execute_ok L cfg up ul' resp H E X). rewrite R.
        now split.
Qed.

(** ** The filter *)

Lemma keep_retained (cfg : config) (u : User) :
  keep cfg u = true <-> retained cfg u.
Proof.
  unfold keep, retained.
  rewrite !andb_true_iff, !negb_true_iff, HasSuffix_ends_with. tauto.
Qed.

Lemma filterUsers_In (cfg : config) (members : list User) (u : User) :
  In u (filterUsers cfg members) <-> In u members /\ retained cfg u.
Proof. now rewrite filterUsers_filter, filter_In, keep_retained. Qed.

Lemma count_occ_filter (f : User -> bool) (l : list User) (u : User) :
  f u = true ->
  count_occ User_eq_dec (filter f l) u = count_occ User_eq_dec l u.
Proof.
  intros Fu. induction l as [|x l IH]; simpl; [reflexivity|].
  destruct (f x) eqn:Fx; simpl; destruct (User_eq_dec x u) as [->|N];
    auto; congruence.
Qed.

(** What the template gets is made of retained members only. *)
Lemma rendered_retained (L : GoLib) (cfg : config) (up : Upstream)
    (ul data : UserList) (u : User) :
  In data (executed (trace (final_proc (serve L cfg up ul)))) ->
  In u (Members data) -> retained cfg u.
Proof.
  intros Hd Hu.
  apply executed_is_rendered_data in Hd as (resp & _ & _ & ->).
  simpl in Hu.
  apply (Permutation_in u
           (Permutation_sym (SliceStable_Permutation (sortKey L) _))) in Hu.
  now apply filterUsers_In in Hu.
Qed.

(** C1: the filter keeps exactly the members that are not deleted, not
    bots and whose email ends with the configured suffix, each as often
    as the upstream list has it; an empty suffix lets every email pass;
    and no member the template is executed on is deleted or a bot,
    whatever its email. *)
Theorem C1_filter_retains_exactly (cfg : config) (members : list User) :
  (forall u : User,
      In u (filterUsers cfg members) <->
      In u members /\ Deleted u = false /\ IsBot u = false /\
      ends_with (Email (UserProfile u)) (EmailFilter cfg))
  /\ (forall u : User,
         retained cfg u ->
         count_occ User_eq_dec (filterUsers cfg members) u
         = count_occ User_eq_dec members u)
  /\ (forall u : User, HasSuffix (Email (UserProfile u)) "" = true)
  /\ (forall (L : GoLib) (up : Upstream) (ul data : UserList) (u : User),
         In data (executed (trace (final_proc (serve L cfg up ul)))) ->
         In u (Members data) ->
         Deleted u = false /\ IsBot u = false /\
         ends_with (Email (UserProfile u)) (EmailFilter cfg)).
Proof.
  split; [|split; [|split]].
  - intros u. rewrite filterUsers_In. unfold retained. tauto.
  - intros u Hr. rewrite filterUsers_filter.
    apply count_occ_filter. now apply keep_retained.
  - intros u. apply HasSuffix_empty.
  - intros L up ul data u Hd Hu.
    exact (rendered_retained L cfg up ul data u Hd Hu).
Qed.


(** C7: filtering a filtered list changes nothing, and every record of
    the filtered list is a record of the list that was filtered. *)
Theorem C7_filter_idempotent (cfg : config) (members : list User) :
  filterUsers cfg (filterUsers cfg members) = filterUsers cfg members
  /\ Forall (fun u => In u members) (filterUsers cfg members).
Proof.
  split.
  - rewrite !filterUsers_filter. apply filter_fixpoint.
  - apply Forall_forall. intros u Hu. now apply filterUsers_In in Hu.
Qed.

(** C9: the filtered list is a subsequence of the upstream list: it is
    the upstream list with some records removed, so two records that
    are kept stand in the order they had, and every kept record is a
    record of the upstream list. *)
Theorem C9_filter_preserves_order (cfg : config) (members : list User) :
  Subseq (filterUsers cfg members) members
  /\ (forall a b : User,
         precedes (filterUsers cfg members) a b -> precedes members a b)
  /\ (forall a b : User,
         retained cfg a -> retained cfg b -> precedes members a b ->
         precedes (filterUsers cfg members) a b)
  /\ (forall u : User, In u (filterUsers cfg members) -> In u members).
Proof.
  rewrite filterUsers_filter. repeat split.
  - apply filter_Subseq.
  - intros a b H. now apply precedes_filter in H.
  - intros a b Ha Hb H. apply precedes_filter.
    repeat split; [assumption | now apply keep_retained ..].
  - intros u H. now apply filter_In in H.
Qed.

(** ** The sort *)

Lemma less_key_lt (L : GoLib) : less L = key_lt (sortKey L).
Proof. reflexivity. Qed.

Lemma ToLower_empty (L : GoLib) : ToLower L "" = "".
Proof. reflexivity. Qed.

(** *** The handler's key is the lower-cased real name *)

Lemma lower_byte_small_of (c : ascii) : lower_byte c = small_of c.
Proof. destruct c as [[] [] [] [] [] [] [] []]; vm_compute; reflexivity. Qed.

Lemma isASCII_byte_below_128 (c : ascii) :
  isASCII_byte c = Nat.ltb (nat_of_ascii c) 128.
Proof. destruct c as [[] [] [] [] [] [] [] []]; vm_compute; reflexivity. Qed.

Lemma isASCII_plain_ascii (s : string) : isASCII s = plain_ascii s.
Proof.
  unfold plain_ascii. induction s as [|c s IH]; simpl; [reflexivity|].
  now rewrite IH, isASCII_byte_below_128.
Qed.

Lemma map_bytes_lower_byte (s : string) :
  map_bytes lower_byte s
  = string_of_list_ascii (map small_of (list_ascii_of_string s)).
Proof.
  induction s as [|c s IH]; simpl; [reflexivity|].
  now rewrite IH, lower_byte_small_of.
Qed.

Lemma ToLower_lower_cased (L : GoLib) (s : string) :
  ToLower L s = lower_cased L s.
Proof.
  unfold ToLower, lower_cased.
  now rewrite isASCII_plain_ascii, map_bytes_lower_byte.
Qed.

Lemma sortKey_lowered_name (L : GoLib) (u : User) :
  sortKey L u = lowered_name L u.
Proof. apply ToLower_lower_cased. Qed.

Lemma less_lowered_name (L : GoLib) (a b : User) :
  less L a b = key_lt (lowered_name L) a b.
Proof. unfold less, key_lt. now rewrite !sortKey_lowered_name. Qed.

Lemma lower_cased_empty (L : GoLib) (s : string) :
  plain_ascii s = true -> lower_cased L s = "" -> s = "".
Proof.
  unfold lower_cased. intros ->. now destruct s.
Qed.

Lemma sink_ext {A : Type} (lt1 lt2 : A -> A -> bool) (x : A) (l : list A) :
  (forall a b, lt1 a b = lt2 a b) -> sink lt1 x l = sink lt2 x l.
Proof.
  intros E. induction l as [|y l IH]; simpl; [reflexivity|].
  now rewrite E, IH.
Qed.

Lemma SliceStable_ext {A : Type} (lt1 lt2 : A -> A -> bool) (l : list A) :
  (forall a b, lt1 a b = lt2 a b) -> SliceStable lt1 l = SliceStable lt2 l.
Proof.
  intros E. unfold SliceStable. f_equal. generalize (@nil A).
  induction l as [|x l IH]; intros acc; simpl; [reflexivity|].
  now rewrite IH, (sink_ext lt1 lt2 x acc E).
Qed.

(** The handler's sort, read as a sort by lower-cased real name. *)
Lemma SliceStable_less (L : GoLib) (l : list User) :
  SliceStable (less L) l = SliceStable (key_lt (lowered_name L)) l.
Proof. apply SliceStable_ext, less_lowered_name. Qed.

(** C2: the list handed to the template is the filtered list sorted
    ascending by the lower-cased real name (byte-wise order), and the
    sort is stable.  Lower-casing is measured by [lower_cased], which
    is written down apart from the handler: the sort permutes the
    filtered list, every member is followed only by members whose
    lower-cased real name is not smaller, two members whose lower-cased
    real names are equal keep the order of the upstream response, and
    members without a real name come first.  Bob listed before alice
    is rendered after her. *)
Theorem C2_sorted_stable (L : GoLib) (filteredUsers : list User) :
  let rendered := SliceStable (less L) filteredUsers in
  Permutation filteredUsers rendered
  /\ StronglySorted (key_le (lowered_name L)) rendered
  /\ (forall k : string,
         filter (has_key (lowered_name L) k) rendered
         = filter (has_key (lowered_name L) k) filteredUsers)
  /\ (forall M1 M2 : User,
         lower_cased L (RealName (UserProfile M1))
         = lower_cased L (RealName (UserProfile M2)) ->
         (precedes rendered M1 M2 <-> precedes filteredUsers M1 M2))
  /\ (exists others : list User,
         rendered = filter (has_key (lowered_name L) "") filteredUsers ++ others
         /\ Forall (fun u => lowered_name L u <> "") others)
  /\ (forall u : User,
         RealName (UserProfile u) = "" -> lowered_name L u = "")
  /\ (forall u : User,
         plain_ascii (RealName (UserProfile u)) = true ->
         lowered_name L u = "" -> RealName (UserProfile u) = "")
  /\ lower_cased L "Bob" = "bob"
  /\ SliceStable (less L)
       [Sample.person "b" "Bob" "b@x.com"; Sample.person "a" "alice" "a@x.com";
        Sample.person "c" "BOB" "c@x.com"]
     = [Sample.person "a" "alice" "a@x.com"; Sample.person "b" "Bob" "b@x.com";
        Sample.person "c" "BOB" "c@x.com"]
  /\ (forall (cfg : config) (up : Upstream) (ul data : UserList),
         In data (executed (trace (final_proc (serve L cfg up ul)))) ->
         StronglySorted (key_le (lowered_name L)) (Members data)
         /\ exists decoded : list User,
              Members data = SliceStable (less L) (filterUsers cfg decoded)).
Proof.
  intros rendered. subst rendered. rewrite SliceStable_less.
  split; [|split; [|split; [|split; [|split; [|split; [|split;
    [|split; [|split]]]]]]]].
  - apply SliceStable_Permutation.
  - apply SliceStable_sorted.
  - intros k. apply SliceStable_stable.
  - intros M1 M2 E. apply SliceStable_precedes. exact E.
  - destruct (sorted_empty_key_first (lowered_name L)
                (SliceStable (key_lt (lowered_name L)) filteredUsers)
                (SliceStable_sorted (lowered_name L) filteredUsers)) as [E F].
    rewrite SliceStable_stable in E. eauto.
  - intros u E. unfold lowered_name. now rewrite E.
  - intros u A E. exact (lower_cased_empty L _ A E).
  - reflexivity.
  - reflexivity.
  - intros cfg up ul data Hd.
    apply executed_is_rendered_data in Hd as (resp & _ & _ & ->). simpl.
    split; [rewrite SliceStable_less; apply SliceStable_sorted | eauto].
Qed.

(** The scenario of the specification: Bob before alice upstream, no
    suffix configured; alice is rendered first. *)
Example alice_before_Bob :
  SliceStable (less golib)
    (filterUsers (mkConfig "" "xoxp-1" "T1")
       [Sample.person "b" "Bob" "b@x.com"; Sample.person "a" "alice" "a@x.com"])
  = [Sample.person "a" "alice" "a@x.com"; Sample.person "b" "Bob" "b@x.com"].
Proof. reflexivity. Qed.

(** ** Failures *)

(** The status line of the upstream answer has no part in a request:
    two upstreams whose answers differ in nothing but the status code
    are served alike. *)
Lemma serve_ignores_StatusCode (L : GoLib) (cfg : config) (up up' : Upstream)
    (ul : UserList) (status status' : Z) (bytes : string)
    (rerr : option string) :
  client_Get up (users_list_url cfg) = inr (mkResponse status bytes rerr) ->
  client_Get up' (users_list_url cfg) = inr (mkResponse status' bytes rerr) ->
  template_Execute up' = template_Execute up ->
  serve L cfg up ul = serve L cfg up' ul.
Proof.
  intros H H' T.
  unfold serve, indexHandler, bind, do_Get, do_Execute, emit, ret. simpl.
  rewrite H, H', T. reflexivity.
Qed.

(** C4, as amended: when [client.Get] returns an error, the handler
    answers with status 500 and the error text followed by a line feed
    as body, never executes the template, calls [client.Get] once and
    leaves [userlist] as it was.  An answer with an HTTP error status
    is no such error: whatever its status code, the request runs as it
    would for any other status code with the same body, and
    the body goes to [json.Unmarshal] right after it is read. *)
Theorem C4_Get_error_reported (L : GoLib) (cfg : config) (ul : UserList) :
  (forall (up : Upstream) (err : string),
      client_Get up (users_list_url cfg) = inl err ->
      http_response (serve L cfg up ul)
      = Some (StatusInternalServerError, (err ++ newline)%string)
      /\ executed (trace (final_proc (serve L cfg up ul))) = []
      /\ fetches (trace (final_proc (serve L cfg up ul))) = 1
      /\ userlist (final_proc (serve L cfg up ul)) = ul)
  /\ (forall (up up' : Upstream) (status status' : Z) (bytes : string)
        (rerr : option string),
         client_Get up (users_list_url cfg)
         = inr (mkResponse status bytes rerr) ->
         client_Get up' (users_list_url cfg)
         = inr (mkResponse status' bytes rerr) ->
         template_Execute up' = template_Execute up ->
         serve L cfg up ul = serve L cfg up' ul)
  /\ (forall (up : Upstream) (resp : Response),
         client_Get up (users_list_url cfg) = inr resp ->
         http_error_status resp = true ->
         exists rest : list Event,
           trace (final_proc (serve L cfg up ul))
           = EvGet (users_list_url cfg) :: EvReadAll
             :: EvUnmarshal (ReadAll_bytes resp) :: rest).
Proof.
  split; [|split].
  - intros up err H. rewrite (serve_Get_error L cfg up ul err H). simpl. auto.
  - intros up up' status status' bytes rerr.
    apply serve_ignores_StatusCode.
  - intros up resp H _.
    destruct (snd (json_Unmarshal L (ReadAll_bytes resp) ul)) as [e|] eqn:E.
    + rewrite (serve_Unmarshal_error L cfg up ul resp e H E). simpl. eauto.
    + destruct (snd (template_Execute up (rendered_data L cfg ul resp)))
        as [e|] eqn:X.
      * rewrite (serve_Execute_error L cfg up ul resp e H E X). simpl. eauto.
      * rewrite (serve_Execute_ok L cfg up ul resp H E X). simpl. eauto.
Qed.

Lemma C4_Get_error_reported_witness :
  http_response (serve golib Sample.cfg Sample.unreachable Sample.userlist0)
  = Some (500%Z, ("urlfetch: DEADLINE_EXCEEDED" ++ newline)%string)
  /\ executed (trace (final_proc
       (serve golib Sample.cfg Sample.unreachable Sample.userlist0))) = []
  /\ fetches (trace (final_proc
       (serve golib Sample.cfg Sample.unreachable Sample.userlist0))) = 1
  /\ userlist (final_proc
       (serve golib Sample.cfg Sample.unreachable Sample.userlist0))
     = Sample.userlist0.
Proof.
  apply (proj1 (C4_Get_error_reported golib Sample.cfg Sample.userlist0)
           Sample.unreachable "urlfetch: DEADLINE_EXCEEDED").
  reflexivity.
Defined.

(** C4, as stated, fails: an upstream answer with an HTTP error status
    is no error of [client.Get].  Slack answers with status 500 and a
    JSON body; the handler decodes the body, executes the template and
    answers with status 200. *)
Lemma C4_error_status_is_rendered :
  http_error_status (mkResponse 500 Sample.refusal None) = true
  /\ http_response
       (serve golib Sample.cfg (Sample.answers 500 Sample.refusal Sample.page)
          Sample.userlist0)
     = Some (200%Z, "<html></html>")
  /\ executed (trace (final_proc
       (serve golib Sample.cfg (Sample.answers 500 Sample.refusal Sample.page)
          Sample.userlist0)))
     = [Sample.userlist0].
Proof. repeat split. Qed.

(** C5: when the body does not decode into [userlist], the process
    exits with status 1 right after logging the error: nothing was
    written to the response, no response is sent, and the template is
    not executed. *)
Theorem C5_decode_failure_is_fatal (L : GoLib) (cfg : config) (up : Upstream)
    (ul : UserList) (resp : Response) (e : string) :
  client_Get up (users_list_url cfg) = inr resp ->
  snd (json_Unmarshal L (ReadAll_bytes resp) ul) = Some e ->
  exists p : Proc,
    serve L cfg up ul = Exited 1 p
    /\ w p = newResponseWriter
    /\ http_response (serve L cfg up ul) = None
    /\ executed (trace p) = []
    /\ last (trace p) EvReadAll = EvLogFatal e.
Proof.
  intros H E. rewrite (serve_Unmarshal_error L cfg up ul resp e H E).
  eexists. split; [reflexivity|]. simpl. auto.
Qed.

Lemma C5_decode_failure_is_fatal_witness :
  exists p : Proc,
    serve golib Sample.cfg (Sample.answers 200 "<html>" Sample.page)
      Sample.userlist0 = Exited 1 p
    /\ w p = newResponseWriter
    /\ http_response
         (serve golib Sample.cfg (Sample.answers 200 "<html>" Sample.page)
            Sample.userlist0) = None
    /\ executed (trace p) = []
    /\ last (trace p) EvReadAll = EvLogFatal "invalid character in JSON input".
Proof.
  apply (C5_decode_failure_is_fatal golib Sample.cfg
           (Sample.answers 200 "<html>" Sample.page) Sample.userlist0
           (mkResponse 200 "<html>" None)); reflexivity.
Defined.

(** Once the status is committed it stays. *)
Lemma fold_Write_committed (chunks : list string) (w0 : ResponseWriter)
    (c : Z) :
  wroteHeader w0 = Some c ->
  wroteHeader (fold_left Write chunks w0) = Some c.
Proof.
  revert w0; induction chunks as [|b chunks IH]; intros w0 Hw; simpl.
  - exact Hw.
  - apply IH. unfold Write, WriteHeader. now rewrite Hw.
Qed.

Lemma http_Error_committed (w0 : ResponseWriter) (c code : Z)
    (error : string) :
  wroteHeader w0 = Some c ->
  http_Error_writer w0 error code
  = {| wroteHeader := Some c;
       written := (written w0 ++ (error ++ newline))%string |}.
Proof.
  intros Hw. unfold http_Error_writer, Write, WriteHeader.
  rewrite Hw. simpl. rewrite !Hw. simpl. rewrite ?Hw. reflexivity.
Qed.

(** When the template fails, the handler logs the failure and calls
    [http.Error] with status 500 and the fixed message; the answer has
    status 500 and the message as its body when the template had
    written nothing, and keeps status 200 otherwise. *)
Lemma Execute_error_http_Error (L : GoLib) (cfg : config) (up : Upstream)
    (ul : UserList) (resp : Response) (e : string) :
  client_Get up (users_list_url cfg) = inr resp ->
  snd (json_Unmarshal L (ReadAll_bytes resp) ul) = None ->
  snd (template_Execute up (rendered_data L cfg ul resp)) = Some e ->
  In (EvHttpError oops StatusInternalServerError)
     (trace (final_proc (serve L cfg up ul)))
  /\ (fst (template_Execute up (rendered_data L cfg ul resp)) = [] ->
      http_response (serve L cfg up ul)
      = Some (StatusInternalServerError, (oops ++ newline)%string))
  /\ (fst (template_Execute up (rendered_data L cfg ul resp)) <> [] ->
      exists body,
        http_response (serve L cfg up ul) = Some (StatusOK, body)).
Proof.
  intros H E X. rewrite (serve_Execute_error L cfg up ul resp e H E X).
  split; [simpl; tauto|]. split.
  - intros ->. reflexivity.
  - destruct (fst (template_Execute up (rendered_data L cfg ul resp)))
      as [|b chunks]; [congruence|]. intros _.
    unfold http_response. cbn [w].
    rewrite (http_Error_committed _ StatusOK)
      by (cbn [fold_left]; apply fold_Write_committed; reflexivity).
    cbn [wroteHeader]. eauto.
Qed.

(** C6 fails where the template has written before it fails: the
    status 200 of the first write stands, the call of [http.Error]
    cannot change it, and the message follows the partial page. *)
Theorem C6_late_template_failure_keeps_200 :
  http_response
    (serve golib Sample.cfg
       (Sample.answers 200 Sample.alice_only Sample.page_cut_short)
       Sample.userlist0)
  = Some (200%Z, ("<html>" ++ oops ++ newline)%string)
  /\ http_response
       (serve golib Sample.cfg
          (Sample.answers 200 Sample.alice_only Sample.page_refused)
          Sample.userlist0)
     = Some (500%Z, (oops ++ newline)%string).
Proof. split; reflexivity. Qed.

(** ** The process-wide [userlist] *)

(** C8 fails: [json.Unmarshal] stores into the [userlist] the request
    before left behind and touches only the fields the body names.
    Slack's refusal [{"ok":false,"error":"ratelimited"}] names no
    members: served after a request that listed Alice, it renders Alice
    again, while the same answer renders an empty page in a process
    that has served nothing yet. *)
Theorem C8_previous_members_served_again :
  map http_response
    (serve_all golib Sample.cfg
       [Sample.answers 200 Sample.alice_only Sample.page;
        Sample.answers 200 Sample.refusal Sample.page]
       Sample.userlist0)
  = [Some (200%Z, "<html>Alice</html>"); Some (200%Z, "<html>Alice</html>")]
  /\ http_response
       (serve golib Sample.cfg (Sample.answers 200 Sample.refusal Sample.page)
          Sample.userlist0)
     = Some (200%Z, "<html></html>").
Proof. split; reflexivity. Qed.

(** ** Reading the body *)

(** C10: the error of [ioutil.ReadAll] is dropped.  A request whose
    body read fails runs exactly as the request whose read returns the
    same bytes without error, and these bytes (possibly none) are what
    [json.Unmarshal] is called on right after the read. *)
Theorem C10_read_error_discarded (L : GoLib) (cfg : config) (up : Upstream)
    (ul : UserList) (status : Z) (bytes e : string) :
  client_Get up (users_list_url cfg) = inr (mkResponse status bytes (Some e)) ->
  serve L cfg up ul
  = serve L cfg
      {| client_Get := fun _ => inr (mkResponse status bytes None);
         template_Execute := template_Execute up |} ul
  /\ exists rest : list Event,
       trace (final_proc (serve L cfg up ul))
       = EvGet (users_list_url cfg) :: EvReadAll :: EvUnmarshal bytes :: rest.
Proof.
  intros H.
  set (up' := {| client_Get := fun _ => inr (mkResponse status bytes None);
                 template_Execute := template_Execute up |}).
  assert (H' : client_Get up' (users_list_url cfg)
               = inr (mkResponse status bytes None)) by reflexivity.
  destruct (snd (json_Unmarshal L bytes ul)) as [x|] eqn:E.
  - rewrite (serve_Unmarshal_error L cfg up ul _ x H E).
    rewrite (serve_Unmarshal_error L cfg up' ul _ x H' E).
    split; [reflexivity | simpl; eauto].
  - destruct (snd (template_Execute up
                     (rendered_data L cfg ul (mkResponse status bytes None))))
      as [x|] eqn:X.
    + rewrite (serve_Execute_error L cfg up ul _ x H E X).
      rewrite (serve_Execute_error L cfg up' ul _ x H' E X).
      split; [reflexivity | simpl; eauto].
    + rewrite (serve_Execute_ok L cfg up ul _ H E X).
      rewrite (serve_Execute_ok L cfg up' ul _ H' E X).
      split; [reflexivity | simpl; eauto].
Qed.

Lemma C10_read_error_discarded_witness :
  serve golib Sample.cfg
    {| client_Get :=
         fun _ => inr (mkResponse 200 "" (Some "unexpected EOF"));
       template_Execute := Sample.page |} Sample.userlist0
  = serve golib Sample.cfg
      {| client_Get := fun _ => inr (mkResponse 200 "" None);
         template_Execute := Sample.page |} Sample.userlist0
  /\ exists rest : list Event,
       trace (final_proc
         (serve golib Sample.cfg
            {| client_Get :=
                 fun _ => inr (mkResponse 200 "" (Some "unexpected EOF"));
               template_Execute := Sample.page |} Sample.userlist0))
       = EvGet (users_list_url Sample.cfg) :: EvReadAll :: EvUnmarshal ""
           :: rest.
Proof.
  apply (C10_read_error_discarded golib Sample.cfg
           {| client_Get :=
                fun _ => inr (mkResponse 200 "" (Some "unexpected EOF"));
              template_Execute := Sample.page |}
           Sample.userlist0 200 "" "unexpected EOF").
  reflexivity.
Defined.

(** ** Further properties of the pipeline *)

Lemma filter_all {A : Type} (f : A -> bool) (l : list A) :
  Forall (fun x => f x = true) l -> filter f l = l.
Proof.
  induction 1 as [|x l Hx _ IH]; simpl; [reflexivity|]. now rewrite Hx, IH.
Qed.

Lemma filter_swap {A : Type} (f g : A -> bool) (l : list A) :
  filter f (filter g l) = filter g (filter f l).
Proof.
  induction l as [|x l IH]; simpl; [reflexivity|].
  destruct (f x) eqn:Fx, (g x) eqn:Gx; simpl; rewrite ?Fx, ?Gx, IH; reflexivity.
Qed.

Lemma filter_stronger {A : Type} (f g : A -> bool) (l : list A) :
  (forall x, f x = true -> g x = true) ->
  filter f l = filter f (filter g l).
Proof.
  intros Hfg. induction l as [|x l IH]; simpl; [reflexivity|].
  destruct (f x) eqn:Fx.
  - rewrite (Hfg x Fx). simpl. now rewrite Fx, IH.
  - destruct (g x); simpl; rewrite ?Fx; exact IH.
Qed.

Lemma StronglySorted_filter_keeps {A : Type} (R : A -> A -> Prop)
    (f : A -> bool) (l : list A) :
  StronglySorted R l -> StronglySorted R (filter f l).
Proof.
  induction 1 as [|x l HS IH HF]; simpl; [constructor|].
  destruct (f x); [|exact IH]. constructor; [exact IH|].
  apply Forall_forall. intros y Hy. apply filter_In in Hy as [Hy _].
  rewrite Forall_forall in HF. now apply HF.
Qed.

Section StableSortComposition.

Context {A : Type} (key : A -> string).

(** A list already in ascending order of keys comes back as it is. *)
Lemma SliceStable_sorted_input (l : list A) :
  StronglySorted (key_le key) l -> SliceStable (key_lt key) l = l.
Proof.
  intros HS. symmetry. now apply SliceStable_unique.
Qed.

(** Filtering before or after the sort gives the same list. *)
Lemma filter_SliceStable (f : A -> bool) (l : list A) :
  filter f (SliceStable (key_lt key) l) = SliceStable (key_lt key) (filter f l).
Proof.
  apply SliceStable_unique.
  - apply StronglySorted_filter_keeps, SliceStable_sorted.
  - intros k. rewrite filter_swap, SliceStable_stable. apply filter_swap.
Qed.

End StableSortComposition.

Lemma filterUsers_retained (cfg : config) (l : list User) :
  Forall (retained cfg) (filterUsers cfg l).
Proof.
  apply Forall_forall. intros u Hu. now apply filterUsers_In in Hu.
Qed.

Lemma filterUsers_all_retained (cfg : config) (l : list User) :
  Forall (retained cfg) l -> filterUsers cfg l = l.
Proof.
  intros H. rewrite filterUsers_filter. apply filter_all.
  eapply Forall_impl; [|exact H]. intros u. apply keep_retained.
Qed.

(** X1: the filter and the sort can be swapped: sorting the upstream
    list first and filtering afterwards gives the list the handler
    builds by filtering first. *)
Theorem filter_sort_commute (L : GoLib) (cfg : config) (l : list User) :
  filterUsers cfg (SliceStable (less L) l)
  = SliceStable (less L) (filterUsers cfg l).
Proof.
  rewrite !filterUsers_filter, less_key_lt. apply filter_SliceStable.
Qed.

(** X2: the list the handler builds is a fixed point of what the
    handler does to a list: filtered and sorted again, it is unchanged. *)
Theorem pipeline_idempotent (L : GoLib) (cfg : config) (l : list User) :
  SliceStable (less L)
    (filterUsers cfg (SliceStable (less L) (filterUsers cfg l)))
  = SliceStable (less L) (filterUsers cfg l).
Proof.
  rewrite filterUsers_all_retained.
  - rewrite less_key_lt. apply SliceStable_sorted_input, SliceStable_sorted.
  - eapply Permutation_Forall; [|apply filterUsers_retained].
    rewrite less_key_lt. apply SliceStable_Permutation.
Qed.

(** X3: when the filtered list is already in ascending order of the
    lower-cased real names, the sort leaves it as it is: the members
    are rendered in upstream order. *)
Theorem sorted_upstream_order_kept (L : GoLib) (cfg : config) (l : list User) :
  StronglySorted (key_le (sortKey L)) (filterUsers cfg l) ->
  SliceStable (less L) (filterUsers cfg l) = filterUsers cfg l.
Proof.
  intros HS. rewrite less_key_lt. now apply SliceStable_sorted_input.
Qed.

Lemma sorted_upstream_order_kept_witness :
  SliceStable (less golib)
    (filterUsers Sample.cfg
       [Sample.person "a" "alice" "a@tink.se";
        Sample.person "x" "Zed" "x@example.org";
        Sample.person "b" "Bob" "b@tink.se"])
  = filterUsers Sample.cfg
      [Sample.person "a" "alice" "a@tink.se";
       Sample.person "x" "Zed" "x@example.org";
       Sample.person "b" "Bob" "b@tink.se"].
Proof.
  apply (sorted_upstream_order_kept golib Sample.cfg).
  repeat constructor.
Defined.

(** ** Further properties of the filter *)

Lemma HasSuffix_of_empty (suffix : string) :
  HasSuffix "" suffix = true <-> suffix = "".
Proof.
  split.
  - destruct suffix; [reflexivity | discriminate].
  - intros ->. reflexivity.
Qed.

Lemma ends_with_trans (s t u : string) :
  ends_with s t -> ends_with t u -> ends_with s u.
Proof.
  intros [p ->] [q ->]. exists (p ++ q)%string.
  induction p as [|a p IH]; simpl; [reflexivity | now rewrite IH].
Qed.

(** X4: a member without an email address passes the filter only when
    no suffix is configured: it is kept exactly when it is in the
    upstream list, neither deleted nor a bot, and the suffix is empty. *)
Theorem member_without_email (cfg : config) (l : list User) (u : User) :
  Email (UserProfile u) = "" ->
  (In u (filterUsers cfg l) <->
   In u l /\ Deleted u = false /\ IsBot u = false /\ EmailFilter cfg = "").
Proof.
  intros E. rewrite filterUsers_In. unfold retained.
  rewrite <- HasSuffix_ends_with, E, HasSuffix_of_empty. tauto.
Qed.

Lemma member_without_email_witness :
  In (Sample.person "n" "Nobody" "")
     (filterUsers Sample.cfg [Sample.person "n" "Nobody" ""]) <->
  In (Sample.person "n" "Nobody" "") [Sample.person "n" "Nobody" ""]
  /\ Deleted (Sample.person "n" "Nobody" "") = false
  /\ IsBot (Sample.person "n" "Nobody" "") = false
  /\ EmailFilter Sample.cfg = "".
Proof.
  apply (member_without_email Sample.cfg [Sample.person "n" "Nobody" ""]
           (Sample.person "n" "Nobody" "")).
  reflexivity.
Defined.

(** X5: with the default configuration (no suffix) the email plays no
    role: the filter keeps the members that are neither deleted nor
    bots, and no others. *)
Theorem no_suffix_keeps_active (cfg : config) (l : list User) :
  EmailFilter cfg = "" ->
  filterUsers cfg l = filter active l.
Proof.
  intros E. rewrite filterUsers_filter. apply filter_ext. intros u.
  unfold keep, active. rewrite E, HasSuffix_empty. apply andb_true_r.
Qed.

Lemma no_suffix_keeps_active_witness :
  filterUsers (mkConfig "" "xoxp-1" "T1")
    [Sample.person "a" "alice" "a@tink.se"; Sample.person "n" "Nobody" ""]
  = filter active
      [Sample.person "a" "alice" "a@tink.se"; Sample.person "n" "Nobody" ""].
Proof.
  apply (no_suffix_keeps_active (mkConfig "" "xoxp-1" "T1")).
  reflexivity.
Defined.

(** X6: a longer suffix only removes members: when the suffix of one
    configuration ends with the suffix of another, what the first
    keeps is a subsequence of what the second keeps. *)
Theorem longer_suffix_keeps_less (cfg1 cfg2 : config) (l : list User) :
  ends_with (EmailFilter cfg2) (EmailFilter cfg1) ->
  Subseq (filterUsers cfg2 l) (filterUsers cfg1 l).
Proof.
  intros H. rewrite !filterUsers_filter.
  rewrite (filter_stronger (keep cfg2) (keep cfg1)).
  - apply filter_Subseq.
  - intros u K. apply keep_retained in K as (D & B & S).
    apply keep_retained. repeat split; try assumption.
    eapply ends_with_trans; eassumption.
Qed.

Lemma longer_suffix_keeps_less_witness :
  Subseq
    (filterUsers (mkConfig "@tink.se" "xoxp-1" "T1")
       [Sample.person "a" "A" "a@tink.se"; Sample.person "b" "B" "a@nottink.se"])
    (filterUsers Sample.cfg
       [Sample.person "a" "A" "a@tink.se"; Sample.person "b" "B" "a@nottink.se"]).
Proof.
  apply (longer_suffix_keeps_less Sample.cfg (mkConfig "@tink.se" "xoxp-1" "T1")).
  exists "@"%string. reflexivity.
Defined.

(** ** [init] *)

(** X7: [init] gives up exactly when the team or the API token is not
    set; the email suffix is optional.  When it goes through, the
    process-wide list carries the configured team and no member. *)
Theorem init_needs_team_and_token (cfg : config) :
  (init cfg = None <-> cfg_SlackTeam cfg = "" \/ SlackApiToken cfg = "")
  /\ (forall ul : UserList,
         init cfg = Some ul ->
         SlackTeam ul = cfg_SlackTeam cfg /\ Members ul = [])
  /\ (forall suffix : string,
         init (mkConfig suffix (SlackApiToken cfg) (cfg_SlackTeam cfg))
         = init cfg).
Proof.
  unfold init. split; [|split].
  - destruct (String.eqb_spec (cfg_SlackTeam cfg) "") as [T|T];
      destruct (String.eqb_spec (SlackApiToken cfg) "") as [K|K];
      split; intros H; auto; try discriminate; tauto.
  - intros ul.
    destruct (String.eqb (cfg_SlackTeam cfg) ""); [discriminate|].
    destruct (String.eqb (SlackApiToken cfg) ""); [discriminate|].
    intros [= <-]. split; reflexivity.
  - reflexivity.
Qed.

(** ** Further properties of [indexHandler] *)

Lemma append_assoc (s t u : string) :
  ((s ++ t) ++ u)%string = (s ++ (t ++ u))%string.
Proof. induction s as [|a s IH]; simpl; [reflexivity | now rewrite IH]. Qed.

Lemma concat_cons (b : string) (chunks : list string) :
  String.concat "" (b :: chunks) = (b ++ String.concat "" chunks)%string.
Proof.
  destruct chunks; simpl; [now rewrite append_nil_r | reflexivity].
Qed.

Lemma written_Write (w0 : ResponseWriter) (b : string) :
  written (Write w0 b) = (written w0 ++ b)%string.
Proof. unfold Write, WriteHeader. now destruct (wroteHeader w0). Qed.

Lemma fold_Write_written (chunks : list string) (w0 : ResponseWriter) :
  written (fold_left Write chunks w0)
  = (written w0 ++ String.concat "" chunks)%string.
Proof.
  revert w0; induction chunks as [|b chunks IH]; intros w0.
  - simpl. now rewrite append_nil_r.
  - cbn [fold_left]. rewrite IH, written_Write, concat_cons.
    apply append_assoc.
Qed.

Lemma fold_Write_status (chunks : list string) :
  wroteHeader (fold_left Write chunks newResponseWriter)
  = match chunks with [] => None | _ :: _ => Some StatusOK end.
Proof.
  destruct chunks as [|b chunks]; [reflexivity|]. simpl.
  now apply fold_Write_committed.
Qed.

(** Every run of the handler takes one of four paths. *)
Lemma serve_paths (L : GoLib) (cfg : config) (up : Upstream) (ul : UserList) :
  (exists err, client_Get up (users_list_url cfg) = inl err)
  \/ (exists resp e,
        client_Get up (users_list_url cfg) = inr resp /\
        snd (json_Unmarshal L (ReadAll_bytes resp) ul) = Some e)
  \/ (exists resp,
        client_Get up (users_list_url cfg) = inr resp /\
        snd (json_Unmarshal L (ReadAll_bytes resp) ul) = None /\
        snd (template_Execute up (rendered_data L cfg ul resp)) = None)
  \/ (exists resp e,
        client_Get up (users_list_url cfg) = inr resp /\
        snd (json_Unmarshal L (ReadAll_bytes resp) ul) = None /\
        snd (template_Execute up (rendered_data L cfg ul resp)) = Some e).
Proof.
  destruct (client_Get up (users_list_url cfg)) as [err|resp]; [eauto|].
  destruct (snd (json_Unmarshal L (ReadAll_bytes resp) ul)) as [e|] eqn:E;
    [right; left; eauto|].
  destruct (snd (template_Execute up (rendered_data L cfg ul resp)))
    as [e|] eqn:X.
  - right; right; right. eauto.
  - right; right; left. eauto.
Qed.

(** X8: a request that goes through (the fetch succeeds, the body
    decodes, the template runs to its end) is answered with status 200
    and the whole output of the template; the handler has made one
    call each of [client.Get], [ioutil.ReadAll], [json.Unmarshal] and
    [Execute], in this order, and the process-wide list is left holding
    the filtered, sorted members that were rendered. *)
Theorem request_served (L : GoLib) (cfg : config) (up : Upstream)
    (ul : UserList) (resp : Response) :
  client_Get up (users_list_url cfg) = inr resp ->
  snd (json_Unmarshal L (ReadAll_bytes resp) ul) = None ->
  snd (template_Execute up (rendered_data L cfg ul resp)) = None ->
  http_response (serve L cfg up ul)
  = Some (StatusOK,
          String.concat ""
            (fst (template_Execute up (rendered_data L cfg ul resp))))
  /\ trace (final_proc (serve L cfg up ul))
     = [EvGet (users_list_url cfg); EvReadAll;
        EvUnmarshal (ReadAll_bytes resp);
        EvExecute (rendered_data L cfg ul resp)]
  /\ Members (userlist (final_proc (serve L cfg up ul)))
     = SliceStable (less L)
         (filterUsers cfg
            (Members (fst (json_Unmarshal L (ReadAll_bytes resp) ul)))).
Proof.
  intros H E X. rewrite (serve_Execute_ok L cfg up ul resp H E X).
  split; [|split; reflexivity].
  unfold http_response. cbn [w].
  rewrite fold_Write_written, fold_Write_status. simpl.
  now destruct (fst (template_Execute up (rendered_data L cfg ul resp))).
Qed.

Lemma request_served_witness :
  http_response
    (serve golib Sample.cfg (Sample.answers 200 Sample.alice_only Sample.page)
       Sample.userlist0)
  = Some (StatusOK,
          String.concat ""
            (fst (template_Execute
                    (Sample.answers 200 Sample.alice_only Sample.page)
                    (rendered_data golib Sample.cfg Sample.userlist0
                       (mkResponse 200 Sample.alice_only None)))))
  /\ trace (final_proc
       (serve golib Sample.cfg
          (Sample.answers 200 Sample.alice_only Sample.page) Sample.userlist0))
     = [EvGet (users_list_url Sample.cfg); EvReadAll;
        EvUnmarshal Sample.alice_only;
        EvExecute (rendered_data golib Sample.cfg Sample.userlist0
                     (mkResponse 200 Sample.alice_only None))]
  /\ Members (userlist (final_proc
       (serve golib Sample.cfg
          (Sample.answers 200 Sample.alice_only Sample.page) Sample.userlist0)))
     = SliceStable (less golib)
         (filterUsers Sample.cfg
            (Members (fst (json_Unmarshal golib Sample.alice_only
                             Sample.userlist0)))).
Proof.
  apply (request_served golib Sample.cfg
           (Sample.answers 200 Sample.alice_only Sample.page)
           Sample.userlist0 (mkResponse 200 Sample.alice_only None));
    reflexivity.
Defined.

(** X9: whatever the upstream does, a request makes exactly one call
    of [client.Get], its first call, to the users.list address with the
    configured token; the template is executed at most once; and when
    the handler returns, the status of the answer is 200 or 500. *)
Theorem one_fetch_per_request (L : GoLib) (cfg : config) (up : Upstream)
    (ul : UserList) :
  fetches (trace (final_proc (serve L cfg up ul))) = 1
  /\ hd_error (trace (final_proc (serve L cfg up ul)))
     = Some (EvGet ("https://slack.com/api/users.list?token="
                    ++ SlackApiToken cfg)%string)
  /\ length (executed (trace (final_proc (serve L cfg up ul)))) <= 1
  /\ (forall (status : Z) (body : string),
         http_response (serve L cfg up ul) = Some (status, body) ->
         status = 200%Z \/ status = 500%Z).
Proof.
  destruct (serve_paths L cfg up ul)
    as [(err & H) | [(resp & e & H & E) | [(resp & H & E & X)
       | (resp & e & H & E & X)]]].
  - rewrite (serve_Get_error L cfg up ul err H). simpl.
    repeat split; auto. intros status body [= <- _]. now right.
  - rewrite (serve_Unmarshal_error L cfg up ul resp e H E). simpl.
    repeat split; auto. discriminate.
  - rewrite (serve_Execute_ok L cfg up ul resp H E X).
    repeat split; auto. unfold http_response. cbn [w].
    rewrite fold_Write_status. intros status body [= <- _].
    now destruct (fst (template_Execute up (rendered_data L cfg ul resp)));
      left.
  - rewrite (serve_Execute_error L cfg up ul resp e H E X).
    repeat split; auto. unfold http_response. cbn [w].
    destruct (fst (template_Execute up (rendered_data L cfg ul resp)))
      as [|b chunks] eqn:C.
    + intros status body [= <- _]. now right.
    + rewrite (http_Error_committed _ StatusOK)
        by (cbn [fold_left]; apply fold_Write_committed; reflexivity).
      intros status body [= <- _]. now left.
Qed.

(** X10: the process exits during a request exactly when the fetch
    succeeded and the body read does not decode; the exit status is
    then 1.  No other failure ends the process. *)
Theorem exit_only_on_decode_error (L : GoLib) (cfg : config) (up : Upstream)
    (ul : UserList) :
  ((exists (code : Z) (p : Proc), serve L cfg up ul = Exited code p) <->
   (exists (resp : Response) (e : string),
       client_Get up (users_list_url cfg) = inr resp /\
       snd (json_Unmarshal L (ReadAll_bytes resp) ul) = Some e))
  /\ (forall (code : Z) (p : Proc),
         serve L cfg up ul = Exited code p -> code = 1%Z).
Proof.
  destruct (serve_paths L cfg up ul)
    as [(err & H) | [(resp & e & H & E) | [(resp & H & E & X)
       | (resp & e & H & E & X)]]].
  - rewrite (serve_Get_error L cfg up ul err H).
    split; [split|].
    + intros (code & p & K). discriminate.
    + intros (resp' & e' & G & E'). congruence.
    + intros code p K. discriminate.
  - rewrite (serve_Unmarshal_error L cfg up ul resp e H E).
    split; [split; eauto|]. intros code p [= <- _]. reflexivity.
  - rewrite (serve_Execute_ok L cfg up ul resp H E X).
    split; [split|].
    + intros (code & p & K). discriminate.
    + intros (resp' & e' & G & E'). congruence.
    + intros code p K. discriminate.
  - rewrite (serve_Execute_error L cfg up ul resp e H E X).
    split; [split|].
    + intros (code & p & K). discriminate.
    + intros (resp' & e' & G & E'). congruence.
    + intros code p K. discriminate.
Qed.

(** X11: the members the template is executed on are the members the
    body decoded to that pass the filter, no more and no fewer: every
    one of them was decoded, every decoded member that is to be
    retained is among them as often as it was decoded, and their
    number (the count in the page footer) is the number of decoded
    members that the filter keeps. *)
Theorem rendered_members_are_the_retained (L : GoLib) (cfg : config)
    (up : Upstream) (ul data : UserList) :
  In data (executed (trace (final_proc (serve L cfg up ul)))) ->
  exists resp : Response,
    client_Get up (users_list_url cfg) = inr resp
    /\ (forall u : User,
           In u (Members data) <->
           In u (Members (fst (json_Unmarshal L (ReadAll_bytes resp) ul)))
           /\ retained cfg u)
    /\ (forall u : User,
           retained cfg u ->
           count_occ User_eq_dec (Members data) u
           = count_occ User_eq_dec
               (Members (fst (json_Unmarshal L (ReadAll_bytes resp) ul))) u)
    /\ length (Members data)
       = length (filter (keep cfg)
                   (Members (fst (json_Unmarshal L (ReadAll_bytes resp) ul))))
    /\ length (Members data)
       <= length (Members (fst (json_Unmarshal L (ReadAll_bytes resp) ul))).
Proof.
  intros Hd.
  apply executed_is_rendered_data in Hd as (resp & H & _ & ->).
  exists resp. split; [exact H|]. cbn [rendered_data Members].
  set (decoded := Members (fst (json_Unmarshal L (ReadAll_bytes resp) ul))).
  pose proof (SliceStable_Permutation (sortKey L) (filterUsers cfg decoded))
    as P.
  rewrite <- less_key_lt in P.
  split; [|split; [|split]].
  - intros u. rewrite <- filterUsers_In. split; intros Hu.
    + eapply Permutation_in; [symmetry; exact P | exact Hu].
    + eapply Permutation_in; [exact P | exact Hu].
  - intros u Hr.
    rewrite <- (proj1 (Permutation_count_occ User_eq_dec _ _) P u).
    rewrite filterUsers_filter. apply count_occ_filter.
    now apply keep_retained.
  - rewrite <- (Permutation_length P). now rewrite filterUsers_filter.
  - rewrite <- (Permutation_length P), filterUsers_filter.
    apply filter_length_le.
Qed.

Lemma rendered_members_are_the_retained_witness :
  exists resp : Response,
    client_Get (Sample.answers 200 Sample.alice_only Sample.page)
      (users_list_url Sample.cfg) = inr resp
    /\ (forall u : User,
           In u (Members (rendered_data golib Sample.cfg Sample.userlist0
                            (mkResponse 200 Sample.alice_only None))) <->
           In u (Members (fst (json_Unmarshal golib (ReadAll_bytes resp)
                                 Sample.userlist0)))
           /\ retained Sample.cfg u)
    /\ (forall u : User,
           retained Sample.cfg u ->
           count_occ User_eq_dec
             (Members (rendered_data golib Sample.cfg Sample.userlist0
                         (mkResponse 200 Sample.alice_only None))) u
           = count_occ User_eq_dec
               (Members (fst (json_Unmarshal golib (ReadAll_bytes resp)
                                Sample.userlist0))) u)
    /\ length (Members (rendered_data golib Sample.cfg Sample.userlist0
                          (mkResponse 200 Sample.alice_only None)))
       = length (filter (keep Sample.cfg)
                   (Members (fst (json_Unmarshal golib (ReadAll_bytes resp)
                                    Sample.userlist0))))
    /\ length (Members (rendered_data golib Sample.cfg Sample.userlist0
                          (mkResponse 200 Sample.alice_only None)))
       <= length (Members (fst (json_Unmarshal golib (ReadAll_bytes resp)
                                  Sample.userlist0))).
Proof.
  apply (rendered_members_are_the_retained golib Sample.cfg
           (Sample.answers 200 Sample.alice_only Sample.page)
           Sample.userlist0).
  left. reflexivity.
Defined.

Lemma serve_leaves_ok (L : GoLib) (cfg : config) (up : Upstream)
    (ul : UserList) :
  userlist_ok L cfg ul -> leaves_ok L cfg (serve L cfg up ul).
Proof.
  intros Hok.
  assert (R : forall resp, userlist_ok L cfg (rendered_data L cfg ul resp)).
  { intros resp. split; cbn [rendered_data Members].
    - eapply Permutation_Forall; [|apply filterUsers_retained].
      rewrite less_key_lt. apply SliceStable_Permutation.
    - rewrite SliceStable_less. apply (SliceStable_sorted (lowered_name L)). }
  destruct (serve_paths L cfg up ul)
    as [(err & H) | [(resp & e & H & E) | [(resp & H & E & X)
       | (resp & e & H & E & X)]]].
  - rewrite (serve_Get_error L cfg up ul err H). exact Hok.
  - rewrite (serve_Unmarshal_error L cfg up ul resp e H E). exact I.
  - rewrite (serve_Execute_ok L cfg up ul resp H E X). apply R.
  - rewrite (serve_Execute_error L cfg up ul resp e H E X). apply R.
Qed.

(** X12: from [init] on, whatever the upstream answers and however
    many requests are served, the process-wide list between two
    requests holds only members that pass the filter of the
    configuration, in ascending order of their lower-cased real names
    (lower-casing as [lower_cased] writes it down); and a request
    whose fetch fails leaves the list exactly as it found it. *)
Theorem userlist_stays_filtered_and_sorted (L : GoLib) (cfg : config)
    (ul : UserList) (ups : list Upstream) :
  init cfg = Some ul ->
  Forall (leaves_ok L cfg) (serve_all L cfg ups ul)
  /\ (forall (up : Upstream) (ul' : UserList) (err : string),
         client_Get up (users_list_url cfg) = inl err ->
         userlist (final_proc (serve L cfg up ul')) = ul').
Proof.
  intros Hinit. split.
  - assert (Hok : userlist_ok L cfg ul).
    { unfold init in Hinit.
      destruct (String.eqb (cfg_SlackTeam cfg) ""); [discriminate|].
      destruct (String.eqb (SlackApiToken cfg) ""); [discriminate|].
      injection Hinit as <-. split; constructor. }
    clear Hinit. revert ul Hok.
    induction ups as [|up ups IH]; intros ul Hok; simpl; [constructor|].
    pose proof (serve_leaves_ok L cfg up ul Hok) as Hs.
    constructor; [exact Hs|].
    destruct (serve L cfg up ul) as [[] p|code p]; [|constructor].
    apply IH. exact Hs.
  - intros up ul' err H. now rewrite (serve_Get_error L cfg up ul' err H).
Qed.

Lemma userlist_stays_filtered_and_sorted_witness :
  Forall (leaves_ok golib Sample.cfg)
    (serve_all golib Sample.cfg
       [Sample.answers 200 Sample.bob_then_alice Sample.page;
        Sample.unreachable;
        Sample.answers 200 Sample.refusal Sample.page_cut_short]
       Sample.userlist0)
  /\ (forall (up : Upstream) (ul' : UserList) (err : string),
         client_Get up (users_list_url Sample.cfg) = inl err ->
         userlist (final_proc (serve golib Sample.cfg up ul')) = ul').
Proof.
  apply (userlist_stays_filtered_and_sorted golib Sample.cfg Sample.userlist0).
  reflexivity.
Defined.

(** The run of the witness: Bob and alice are listed in this order,
    and the process-wide list holds alice before Bob after each of the
    three requests. *)
Example userlist_between_requests :
  map (fun r => map (fun u => RealName (UserProfile u))
                  (Members (userlist (final_proc r))))
    (serve_all golib Sample.cfg
       [Sample.answers 200 Sample.bob_then_alice Sample.page;
        Sample.unreachable;
        Sample.answers 200 Sample.refusal Sample.page_cut_short]
       Sample.userlist0)
  = [["alice"; "Bob"]; ["alice"; "Bob"]; ["alice"; "Bob"]].
Proof. reflexivity. Qed.

(** X13: when the template fails, the handler writes one log line
    that names the error and then calls [http.Error] with status 500
    and the fixed message, and does nothing else; if the template had
    written nothing, the answer is status 500 with the message and a
    line feed as body.  The process-wide list is left holding the
    members the template was executed on. *)
Theorem template_failure_reported (L : GoLib) (cfg : config) (up : Upstream)
    (ul : UserList) (resp : Response) (e : string) :
  client_Get up (users_list_url cfg) = inr resp ->
  snd (json_Unmarshal L (ReadAll_bytes resp) ul) = None ->
  snd (template_Execute up (rendered_data L cfg ul resp)) = Some e ->
  trace (final_proc (serve L cfg up ul))
  = [EvGet (users_list_url cfg); EvReadAll; EvUnmarshal (ReadAll_bytes resp);
     EvExecute (rendered_data L cfg ul resp);
     EvLogPrintf ("Failed to execute index template: " ++ e ++ newline);
     EvHttpError "Oops. That's embarrassing. Please try again later." 500]
  /\ (fst (template_Execute up (rendered_data L cfg ul resp)) = [] ->
      http_response (serve L cfg up ul)
      = Some (500%Z,
              ("Oops. That's embarrassing. Please try again later."
               ++ newline)%string))
  /\ userlist (final_proc (serve L cfg up ul)) = rendered_data L cfg ul resp.
Proof.
  intros H E X. rewrite (serve_Execute_error L cfg up ul resp e H E X).
  split; [reflexivity|]. split; [|reflexivity].
  intros C. cbn [final_proc]. rewrite C. reflexivity.
Qed.

Lemma template_failure_reported_witness :
  trace (final_proc
    (serve golib Sample.cfg
       (Sample.answers 200 Sample.alice_only Sample.page_refused)
       Sample.userlist0))
  = [EvGet (users_list_url Sample.cfg); EvReadAll;
     EvUnmarshal (ReadAll_bytes (mkResponse 200 Sample.alice_only None));
     EvExecute (rendered_data golib Sample.cfg Sample.userlist0
                  (mkResponse 200 Sample.alice_only None));
     EvLogPrintf ("Failed to execute index template: "
                  ++ "template: index: incomplete" ++ newline);
     EvHttpError "Oops. That's embarrassing. Please try again later." 500]
  /\ (fst (template_Execute
             (Sample.answers 200 Sample.alice_only Sample.page_refused)
             (rendered_data golib Sample.cfg Sample.userlist0
                (mkResponse 200 Sample.alice_only None))) = [] ->
      http_response
        (serve golib Sample.cfg
           (Sample.answers 200 Sample.alice_only Sample.page_refused)
           Sample.userlist0)
      = Some (500%Z,
              ("Oops. That's embarrassing. Please try again later."
               ++ newline)%string))
  /\ userlist (final_proc
       (serve golib Sample.cfg
          (Sample.answers 200 Sample.alice_only Sample.page_refused)
          Sample.userlist0))
     = rendered_data golib Sample.cfg Sample.userlist0
         (mkResponse 200 Sample.alice_only None).
Proof.
  apply (template_failure_reported golib Sample.cfg
           (Sample.answers 200 Sample.alice_only Sample.page_refused)
           Sample.userlist0 (mkResponse 200 Sample.alice_only None)
           "template: index: incomplete"); reflexivity.
Defined.
